(** * Google Scholar enrichment pipeline (googlescholar.py)

    A shallow embedding of the three resolvers [get_scholar_data],
    [get_scholar_profiles], [get_author_profile_data] and of the
    orchestrating loop of [main], together with the properties of the
    pipeline design that can be stated on them.

    Conventions of the embedding:
    - a Python [str] is the list of its code points ([list N]);
    - a Python [dict] with string keys is a [gmap string _] (the insertion
      order of keys is not represented);
    - an HTML page is represented by what the CSS selectors used in the
      source find in it (one record field per selector);
    - [requests.get] is an oracle over an abstract world state, which may
      return a page or raise; every request and every [time.sleep] is
      recorded in a trace of events;
    - [print] calls and the reading and writing of the JSON files are not
      represented: [main] is the loop over the loaded papers and its result
      is [final_database]. *)

From stdpp Require Import gmap strings list fin_maps pretty.
From Stdlib Require Import NArith Ascii.

Local Open Scope N_scope.

(** ** Python strings *)

Module Py.

Abbreviation str := (list N).

(** A source literal as a Python string. *)
Definition lit (s : string) : str :=
  N_of_ascii <$> String.list_ascii_of_string s.

(** [bool(s)] for a string: non-empty. *)
Definition truthy (s : str) : bool :=
  match s with [] => false | _ => true end.

(** [str.isspace] on one code point (CPython's [_PyUnicode_IsWhitespace]). *)
Definition isspace (c : N) : bool :=
  ((9 <=? c) && (c <=? 13)) || ((28 <=? c) && (c <=? 32))
  || (c =? 133) || (c =? 160) || (c =? 5760)
  || ((8192 <=? c) && (c <=? 8202))
  || (c =? 8232) || (c =? 8233) || (c =? 8239) || (c =? 8287)
  || (c =? 12288).

Fixpoint lstrip (s : str) : str :=
  match s with
  | [] => []
  | c :: s' => if isspace c then lstrip s' else s
  end.

Definition rstrip (s : str) : str := rev (lstrip (rev s)).

(** [s.strip()] *)
Definition strip (s : str) : str := rstrip (lstrip s).

(** [s.split(sep)] for a one-character separator: never the empty list. *)
Fixpoint split (sep : N) (s : str) : list str :=
  match s with
  | [] => [[]]
  | c :: s' =>
      if c =? sep then [] :: split sep s'
      else match split sep s' with
           | tok :: toks => (c :: tok) :: toks
           | [] => [[c]]
           end
  end.

(** [s.split()]: the maximal runs of non-whitespace, [cur] being the run
    under construction, reversed. *)
Fixpoint split_ws_from (cur : str) (s : str) : list str :=
  match s with
  | [] => if truthy cur then [rev cur] else []
  | c :: s' =>
      if isspace c
      then (if truthy cur then rev cur :: split_ws_from [] s'
            else split_ws_from [] s')
      else split_ws_from (c :: cur) s'
  end.

Definition split_ws (s : str) : list str := split_ws_from [] s.

(** The exceptions that the modelled code can meet. *)
Inductive exn :=
| AttributeError
| IndexError
| UnicodeEncodeError
| RequestException.

Inductive res (A : Type) :=
| Ok (a : A)
| Raise (e : exn).
Arguments Ok {A} a.
Arguments Raise {A} e.

(** [l[-1]] *)
Definition last_item {A} (l : list A) : res A :=
  match last l with
  | Some x => Ok x
  | None => Raise IndexError
  end.

(** *** [urllib.parse.quote] with its default [safe='/'] *)

Definition is_surrogate (c : N) : bool := (55296 <=? c) && (c <=? 57343).

(** [s.encode('utf-8', 'strict')] on one code point. *)
Definition utf8 (c : N) : res (list N) :=
  if c <? 128 then Ok [c]
  else if c <? 2048 then Ok [192 + c / 64; 128 + c mod 64]
  else if is_surrogate c then Raise UnicodeEncodeError
  else if c <? 65536 then
    Ok [224 + c / 4096; 128 + (c / 64) mod 64; 128 + c mod 64]
  else
    Ok [240 + c / 262144; 128 + (c / 4096) mod 64;
        128 + (c / 64) mod 64; 128 + c mod 64].

Fixpoint encode_utf8 (s : str) : res (list N) :=
  match s with
  | [] => Ok []
  | c :: s' =>
      match utf8 c with
      | Raise e => Raise e
      | Ok bs =>
          match encode_utf8 s' with
          | Raise e => Raise e
          | Ok bs' => Ok (bs ++ bs')
          end
      end
  end.

(** Letters, digits, [_.-~] and the default safe character [/]. *)
Definition is_safe (b : N) : bool :=
  ((65 <=? b) && (b <=? 90)) || ((97 <=? b) && (b <=? 122))
  || ((48 <=? b) && (b <=? 57))
  || (b =? 95) || (b =? 46) || (b =? 45) || (b =? 126) || (b =? 47).

Definition hex_digit (d : N) : N :=
  if d <? 10 then 48 + d else 55 + d.

Definition quote_byte (b : N) : str :=
  if is_safe b then [b] else [37; hex_digit (b / 16); hex_digit (b mod 16)].

Definition quote (s : str) : res str :=
  match encode_utf8 s with
  | Raise e => Raise e
  | Ok bs => Ok (concat (quote_byte <$> bs))
  end.

End Py.
Import Py.

(** ** Pages as the selectors see them *)

(** An element: the text nodes under it, in document order, and its
    attributes. *)
Record Tag := {
  strings : list str;
  attrs : gmap string str
}.

(** [tag.get_text()] *)
Definition get_text (t : Tag) : str := concat (strings t).

(** [tag.get_text(strip=True)]: every text node is stripped and the empty
    ones are skipped. *)
Definition get_text_strip (t : Tag) : str :=
  concat (filter (λ s, s ≠ []) (strip <$> strings t)).

(** [tag.get(name, default)] *)
Definition tag_get (t : Tag) (name : string) (dflt : str) : str :=
  default dflt (attrs t !! name).

(** An element on which the source calls [find("a")]. *)
Record Heading := {
  h_tag : Tag;
  find_a : option Tag
}.

(** An element on which the source calls [find_next_sibling("a")]. *)
Record Sibling := {
  s_tag : Tag;
  find_next_sibling_a : option Tag
}.

(** One [.gs_r] block of a search page. *)
Record SearchBlock := {
  gs_rt : option Heading;          (* select_one(".gs_rt") *)
  gs_a : option Tag;               (* select_one(".gs_a") *)
  gs_rs : option Tag;              (* select_one(".gs_rs") *)
  gs_nph_a : option Tag;           (* select_one(".gs_nph+ a") *)
  a_sib_a : list Sibling           (* select("a ~ a") *)
}.

(** One [.gsc_1usr] block of an author-search page. *)
Record UserBlock := {
  gs_ai_name : option Heading;     (* select_one('.gs_ai_name') *)
  gs_ai_aff : option Tag;          (* select_one('.gs_ai_aff') *)
  gs_ai_eml : option Tag;          (* select_one('.gs_ai_eml') *)
  gs_ai_int : option Tag;          (* select_one('.gs_ai_int') *)
  gs_ai_cby : option Tag           (* select_one('.gs_ai_cby') *)
}.

(** One [#gsc_a_b .gsc_a_t] block of a profile page. [select_one(".gs_gray")]
    is the first element of [select(".gs_gray")]. *)
Record ArticleBlock := {
  gsc_a_at : option Tag;           (* select_one(".gsc_a_at") *)
  gs_gray : list Tag               (* select(".gs_gray") *)
}.

Record Page := {
  gs_r : list SearchBlock;         (* select(".gs_r") *)
  gsc_1usr : list UserBlock;       (* select('.gsc_1usr') *)
  gsc_prf_in : option Tag;         (* select_one("#gsc_prf_in") *)
  gsc_prf_il : option Tag;         (* select_one("#gsc_prf_inw+ .gsc_prf_il") *)
  gsc_prf_ivh : option Tag;        (* select_one("#gsc_prf_ivh") *)
  gsc_prf_int : option Tag;        (* select_one("#gsc_prf_int") *)
  gsc_a_t : list ArticleBlock;     (* select("#gsc_a_b .gsc_a_t") *)
  rsb_std_1 : option Tag;          (* select_one("tr:nth-child(1) .gsc_rsb_std") *)
  rsb_std_2 : option Tag;          (* select_one("tr:nth-child(2) .gsc_rsb_std") *)
  rsb_std_3 : option Tag           (* select_one("tr:nth-child(3) .gsc_rsb_std") *)
}.

(** ** Extracted records *)

(** A dictionary of extracted strings. *)
Abbreviation fields := (gmap string str).

(** [{k: v for k, v in d.items() if v}] *)
Definition remove_empty (d : fields) : fields :=
  filter (λ kv, kv.2 ≠ []) d.

(** The values of a profile record: a string, the list of articles, or the
    table of citation metrics. *)
Inductive value :=
| VStr (s : str)
| VArticles (l : list fields)
| VMetrics (l : list (gmap string fields)).

(** A value read from a paper record: arxiv.py writes strings and [None]. *)
Inductive field :=
| FNone
| FStr (s : str).

Abbreviation paper := (gmap string field).

Record AuthorEntry := {
  author_name : str;
  profiles : list (gmap string value)
}.

Record PaperEntry := {
  arxiv : gmap string field;
  scholar_search : list fields;
  authors_details : list AuthorEntry
}.

Definition scholar_base : str := lit "https://scholar.google.com".

(** ** Extraction from one block *)

(** The body of the [try] of [get_scholar_data] up to the filter, for one
    [.gs_r] element. *)
Definition scholar_result (el : SearchBlock) : res fields :=
  let result : fields := ∅ in
  let result :=
    match gs_rt el with
    | Some title_el =>
        let result := <["title" := get_text (h_tag title_el)]> result in
        match find_a title_el with
        | Some a_tag =>
            match attrs a_tag !! "href" with
            | Some href =>
                let result := <["title_link" := href]> result in
                <["id" := tag_get a_tag "id" []]> result
            | None => result
            end
        | None => result
        end
    | None => result
    end in
  let result :=
    match gs_a el with
    | Some displayed_link =>
        <["displayed_link" := get_text displayed_link]> result
    | None => result
    end in
  let result :=
    match gs_rs el with
    | Some snippet => <["snippet" := get_text_strip snippet]> result
    | None => result
    end in
  let result :=
    match gs_nph_a el with
    | Some cited_a =>
        let result := <["cited_by_count" := get_text cited_a]> result in
        <["cited_link" := scholar_base ++ tag_get cited_a "href" []]> result
    | None => result
    end in
  let result :=
    match a_sib_a el with
    | first :: _ =>
        match find_next_sibling_a first with
        | Some ver_el =>
            let result := <["versions_count" := get_text ver_el]> result in
            <["versions_link" := scholar_base ++ tag_get ver_el "href" []]> result
        | None => result
        end
    | [] => result
    end in
  Ok (remove_empty result).

(** The [for el in soup.select(".gs_r")] loop with its inner [try]: a block
    whose extraction raises is skipped. *)
Definition scholar_results (els : list SearchBlock) : list fields :=
  fold_left
    (λ results el,
       match scholar_result el with
       | Ok result => results ++ [result]
       | Raise _ => results
       end)
    els [].

(** The body of the loop of [get_scholar_profiles] for one [.gsc_1usr]
    element. *)
Definition scholar_profile (el : UserBlock) : res fields :=
  let profile : fields := ∅ in
  let profile :=
    match gs_ai_name el with
    | Some name_el =>
        let profile := <["name" := get_text (h_tag name_el)]> profile in
        match find_a name_el with
        | Some a_tag =>
            match attrs a_tag !! "href" with
            | Some href => <["name_link" := scholar_base ++ href]> profile
            | None => profile
            end
        | None => profile
        end
    | None => profile
    end in
  let profile :=
    match gs_ai_aff el with
    | Some pos_el => <["position" := get_text pos_el]> profile
    | None => profile
    end in
  let profile :=
    match gs_ai_eml el with
    | Some email_el => <["email" := get_text email_el]> profile
    | None => profile
    end in
  let profile :=
    match gs_ai_int el with
    | Some dept_el => <["departments" := get_text dept_el]> profile
    | None => profile
    end in
  match gs_ai_cby el with
  | Some cited_el =>
      match last_item (split_ws (get_text cited_el)) with
      | Ok count => Ok (remove_empty (<["cited_by_count" := count]> profile))
      | Raise e => Raise e
      end
  | None => Ok (remove_empty profile)
  end.

(** The [for el in soup.select('.gsc_1usr')] loop: there is no inner [try],
    an exception leaves the loop. *)
Fixpoint scholar_profiles (profiles : list fields) (els : list UserBlock)
  : res (list fields) :=
  match els with
  | [] => Ok profiles
  | el :: els' =>
      match scholar_profile el with
      | Ok profile => scholar_profiles (profiles ++ [profile]) els'
      | Raise e => Raise e
      end
  end.

(** The body of the articles loop of [get_author_profile_data]. *)
Definition profile_article (el : ArticleBlock) : fields :=
  let article : fields := ∅ in
  let article :=
    match gsc_a_at el with
    | Some title_el =>
        let article := <["title" := get_text title_el]> article in
        let article_link := tag_get title_el "href" [] in
        if truthy article_link
        then <["link" := scholar_base ++ article_link]> article
        else article
    | None => article
    end in
  let article :=
    match head (gs_gray el) with
    | Some authors_el => <["authors" := get_text authors_el]> article
    | None => article
    end in
  let article :=
    match gs_gray el with
    | _ :: pub :: _ => <["publication" := get_text pub]> article
    | _ => article
    end in
  remove_empty article.

(** One row of the citation table. *)
Definition metric_row (key : string) (cell : option Tag) : gmap string fields :=
  match cell with
  | Some c => {[ key := {[ "all" := get_text c ]} ]}
  | None => ∅
  end.

(** The body of the outer [try] of [get_author_profile_data] after the
    fetch. *)
Definition profile_data_of (soup : Page) : gmap string value :=
  let profile_data : gmap string value := ∅ in
  let profile_data :=
    match gsc_prf_in soup with
    | Some name_el => <["name" := VStr (get_text name_el)]> profile_data
    | None => profile_data
    end in
  let profile_data :=
    match gsc_prf_il soup with
    | Some pos_el => <["position" := VStr (get_text pos_el)]> profile_data
    | None => profile_data
    end in
  let profile_data :=
    match gsc_prf_ivh soup with
    | Some email_el => <["email" := VStr (get_text email_el)]> profile_data
    | None => profile_data
    end in
  let profile_data :=
    match gsc_prf_int soup with
    | Some dept_el => <["departments" := VStr (get_text dept_el)]> profile_data
    | None => profile_data
    end in
  let articles := profile_article <$> gsc_a_t soup in
  let profile_data := <["articles" := VArticles articles]> profile_data in
  let table : list (gmap string fields) := [] in
  let table := table ++ [metric_row "citations" (rsb_std_1 soup)] in
  let table := table ++ [metric_row "h_index" (rsb_std_2 soup)] in
  let table := table ++ [metric_row "i_index" (rsb_std_3 soup)] in
  <["citation_metrics" := VMetrics table]> profile_data.

(** [{**profile, **profile_data}] *)
Definition combine (profile : fields) (profile_data : gmap string value)
  : gmap string value :=
  profile_data ∪ (VStr <$> profile).

(** [paper.get(key, '')] *)
Definition paper_get (p : paper) (key : string) : field :=
  default (FStr []) (p !! key).

(** The text an f-string puts for a field. *)
Definition format (v : field) : str :=
  match v with
  | FNone => lit "None"
  | FStr s => s
  end.

(** The search query for a paper: its title between double quotes. *)
Definition query_of (p : paper) : str :=
  [34] ++ format (paper_get p "title") ++ [34].

(** [[a.strip() for a in s.split(",") if a.strip()]] *)
Definition authors_of_string (s : str) : list str :=
  strip <$> filter (λ a, strip a ≠ []) (split 44 s).

(** The [authors_list] of a paper; [None] has no [split]. *)
Definition authors_list (p : paper) : res (list str) :=
  match paper_get p "authors" with
  | FStr s => Ok (authors_of_string s)
  | FNone => Raise AttributeError
  end.

(** ** Effects: requests, sleeps and exceptions *)

Inductive event :=
| Get (url : str)
| Sleep (secs : N).

(** A computation over a world [W]: its result or exception, the world it
    leaves and the events it emitted. *)
Definition M (W A : Type) : Type := W → res A * W * list event.

Definition ret {W A} (a : A) : M W A := λ w, (Ok a, w, []).

Definition raise {W A} (e : exn) : M W A := λ w, (Raise e, w, []).

Definition bind {W A B} (m : M W A) (k : A → M W B) : M W B :=
  λ w,
    match m w with
    | (Ok a, w1, t1) => let '(r, w2, t2) := k a w1 in (r, w2, t1 ++ t2)
    | (Raise e, w1, t1) => (Raise e, w1, t1)
    end.

(** [try: m except Exception: h] *)
Definition try_except {W A} (m : M W A) (h : exn → M W A) : M W A :=
  λ w,
    match m w with
    | (Ok a, w1, t1) => (Ok a, w1, t1)
    | (Raise e, w1, t1) => let '(r, w2, t2) := h e w1 in (r, w2, t1 ++ t2)
    end.

(** A pure step that may raise. *)
Definition lift {W A} (r : res A) : M W A := λ w, (r, w, []).

(** [time.sleep(secs)] *)
Definition sleep {W} (secs : N) : M W unit := λ w, (Ok tt, w, [Sleep secs]).

Notation "'let*' x ':=' m 'in' k" := (bind m (λ x, k))
  (at level 10, x pattern, m at level 100, k at level 200).

Section Pipeline.

Context {W : Type}.

(** The network: the answer to a GET of a URL in a world, a parsed page or
    an exception, and the world after it. *)
Variable http : str → W → res Page * W.

(** [requests.get(url, headers=headers)] followed by [BeautifulSoup(...)] *)
Definition requests_get (url : str) : M W Page :=
  λ w, let '(r, w') := http url w in (r, w', [Get url]).

Definition search_base : str := lit "https://www.google.com/scholar?q=".

Definition get_scholar_data (query : str) : M W (list fields) :=
  let* quoted := lift (quote query) in
  let url := search_base ++ quoted in
  try_except
    (let* soup := requests_get url in
     ret (scholar_results (gs_r soup)))
    (λ _, ret []).

Definition authors_base : str :=
  lit "https://scholar.google.com/citations?hl=en&view_op=search_authors&mauthors=".

Definition get_scholar_profiles (author_name : str) : M W (list fields) :=
  let base_url := authors_base in
  let* query := lift (quote author_name) in
  let url := base_url ++ query in
  try_except
    (let* soup := requests_get url in
     lift (scholar_profiles [] (gsc_1usr soup)))
    (λ _, ret []).

Definition get_author_profile_data (profile_url : str)
  : M W (gmap string value) :=
  try_except
    (let* soup := requests_get profile_url in
     ret (profile_data_of soup))
    (λ _, ret ∅).

(** The [for profile in profiles] loop of [main]; the result is what the
    loop appends to [detailed_profiles]. *)
Fixpoint detail_profiles (profiles : list fields)
  : M W (list (gmap string value)) :=
  match profiles with
  | [] => ret []
  | profile :: rest =>
      match profile !! "name_link" with
      | Some profile_url =>
          let* profile_data := get_author_profile_data profile_url in
          let combined_profile := combine profile profile_data in
          let* _ := sleep 1 in
          let* more := detail_profiles rest in
          ret (combined_profile :: more)
      | None => detail_profiles rest
      end
  end.

(** The [for author in authors_list] loop of [main]; the result is what
    the loop appends to [authors_details]. *)
Fixpoint detail_authors (authors_list : list str) : M W (list AuthorEntry) :=
  match authors_list with
  | [] => ret []
  | author :: rest =>
      let* profiles := get_scholar_profiles author in
      let* detailed_profiles := detail_profiles profiles in
      let author_entry :=
        {| author_name := author; profiles := detailed_profiles |} in
      let* _ := sleep 1 in
      let* more := detail_authors rest in
      ret (author_entry :: more)
  end.

(** The body of the [for paper in arxiv_papers] loop of [main], up to the
    append to [final_database]. *)
Definition process_paper (p : paper) : M W PaperEntry :=
  let query := query_of p in
  let* scholar_results := get_scholar_data query in
  let* authors_list := lift (authors_list p) in
  let* authors_details := detail_authors authors_list in
  ret {| arxiv := p;
         scholar_search := scholar_results;
         authors_details := authors_details |}.

(** The loop of [main] over the loaded papers; the result is
    [final_database]. *)
Fixpoint main (arxiv_papers : list paper) : M W (list PaperEntry) :=
  match arxiv_papers with
  | [] => ret []
  | p :: rest =>
      let* paper_entry := process_paper p in
      let* _ := sleep 2 in
      let* more := main rest in
      ret (paper_entry :: more)
  end.

End Pipeline.

(** ** Vocabulary of the statements *)

(** The URLs requested in a trace, in order. *)
Definition requests (tr : list event) : list str :=
  omap (λ e, match e with Get url => Some url | Sleep _ => None end) tr.

(** [s.startswith(p)] *)
Fixpoint starts_with (p s : str) : bool :=
  match p, s with
  | [], _ => true
  | c :: p', d :: s' => (c =? d) && starts_with p' s'
  | _ :: _, [] => false
  end.

(** The requests of a trace that go to the search endpoint. *)
Definition search_requests (tr : list event) : list str :=
  filter (λ url, starts_with search_base url = true) (requests tr).

(** No code point of the string is a lone surrogate: [quote] accepts it. *)
Definition encodable (s : str) : bool :=
  forallb (λ c, negb (is_surrogate c)) s.

(** The quoted form of an encodable string. *)
Definition quoted (s : str) : str :=
  match quote s with
  | Ok q => q
  | Raise _ => []
  end.

(** A paper record whose title is encodable (or absent, or [None]) and
    whose author list is an encodable string (or absent). *)
Definition paper_ok (p : paper) : bool :=
  encodable (format (paper_get p "title"))
  && match paper_get p "authors" with
     | FStr s => encodable s
     | FNone => false
     end.

Definition search_url (p : paper) : str :=
  search_base ++ quoted (query_of p).

(** A dictionary without empty values. *)
Definition no_empty_value (d : fields) : Prop :=
  map_Forall (λ _ v, v ≠ []) d.

(** The candidates that carry a profile link. *)
Definition linked (cands : list fields) : list fields :=
  filter (λ c, is_Some (c !! "name_link")) cands.

(** [sep.join(l)] *)
Fixpoint join (sep : N) (l : list str) : str :=
  match l with
  | [] => []
  | [s] => s
  | s :: l' => s ++ sep :: join sep l'
  end.

(** A candidate whose profile link, if any, is not on the search
    endpoint. *)
Definition off_search (c : fields) : Prop :=
  ∀ u, c !! "name_link" = Some u → starts_with search_base u = false.

(** The output record [e] is a record for the paper [p]: it carries the
    paper, its author entries are the authors of the paper's author list,
    in order, and its search results are what the search resolver returned
    for the paper's query. *)
Definition entry_for {W : Type} (http : str → W → res Page * W)
    (p : paper) (e : PaperEntry) : Prop :=
  arxiv e = p
  ∧ Ok (author_name <$> authors_details e) = authors_list p
  ∧ ∃ w0 w1, get_scholar_data http (query_of p) w0
             = (Ok (scholar_search e), w1, [Get (search_url p)]).

(** Two networks give the same answers in related worlds, and leave
    related worlds. *)
Definition same_answers {W1 W2 : Type} (R : W1 → W2 → Prop)
    (http1 : str → W1 → res Page * W1) (http2 : str → W2 → res Page * W2)
  : Prop :=
  ∀ url w1 w2,
    R w1 w2 →
    (http1 url w1).1 = (http2 url w2).1 ∧ R (http1 url w1).2 (http2 url w2).2.

(** Two computations give the same result and the same events from related
    worlds, and leave related worlds. *)
Definition same_run {W1 W2 A : Type} (R : W1 → W2 → Prop)
    (m1 : M W1 A) (m2 : M W2 A) : Prop :=
  ∀ w1 w2,
    R w1 w2 →
    (m1 w1).1.1 = (m2 w2).1.1
    ∧ (m1 w1).2 = (m2 w2).2
    ∧ R (m1 w1).1.2 (m2 w2).1.2.

(** ** Sample pages, networks and papers *)

Module Sample.

Definition text (s : string) : Tag := {| strings := [lit s]; attrs := ∅ |}.

(** An element without text and without attributes. *)
Definition empty_tag : Tag := {| strings := []; attrs := ∅ |}.

Definition link (s href : string) : Tag :=
  {| strings := [lit s]; attrs := {[ "href" := lit href ]} |}.

(** A candidate with a name, a profile link and a citation count. *)
Definition user_linked : UserBlock :=
  {| gs_ai_name := Some {| h_tag := text "A. Smith";
                           find_a := Some (link "A. Smith" "/citations?user=u1") |};
     gs_ai_aff := Some (text "MIT");
     gs_ai_eml := None;
     gs_ai_int := None;
     gs_ai_cby := Some (text "Cited by 12") |}.

(** A candidate with a name only: no anchor, hence no profile link. *)
Definition user_unlinked : UserBlock :=
  {| gs_ai_name := Some {| h_tag := text "B. Lee"; find_a := None |};
     gs_ai_aff := None;
     gs_ai_eml := None;
     gs_ai_int := None;
     gs_ai_cby := None |}.

(** A candidate whose citation element is there but empty. *)
Definition user_uncited : UserBlock :=
  {| gs_ai_name := Some {| h_tag := text "B. Lee";
                           find_a := Some (link "B. Lee" "/citations?user=u2") |};
     gs_ai_aff := Some (text "ETH");
     gs_ai_eml := None;
     gs_ai_int := None;
     gs_ai_cby := Some empty_tag |}.

Definition block : SearchBlock :=
  {| gs_rt := Some {| h_tag := text "X"; find_a := Some (link "X" "http://x") |};
     gs_a := Some (text "A Smith - 2020");
     gs_rs := None;
     gs_nph_a := None;
     a_sib_a := [] |}.

Definition page_of (blocks : list SearchBlock) (users : list UserBlock) : Page :=
  {| gs_r := blocks; gsc_1usr := users;
     gsc_prf_in := None; gsc_prf_il := None; gsc_prf_ivh := None;
     gsc_prf_int := None; gsc_a_t := [];
     rsb_std_1 := None; rsb_std_2 := None; rsb_std_3 := None |}.

(** A profile page with an empty name element, no article and no
    citation table. *)
Definition bare_profile : Page :=
  {| gs_r := []; gsc_1usr := [];
     gsc_prf_in := Some empty_tag; gsc_prf_il := None; gsc_prf_ivh := None;
     gsc_prf_int := None; gsc_a_t := [];
     rsb_std_1 := None; rsb_std_2 := None; rsb_std_3 := None |}.

(** A profile page with a name, one article and two of the three
    citation cells. *)
Definition full_profile : Page :=
  {| gs_r := []; gsc_1usr := [user_linked];
     gsc_prf_in := Some (text "Alice Smith"); gsc_prf_il := Some (text "MIT");
     gsc_prf_ivh := None; gsc_prf_int := None;
     gsc_a_t := [ {| gsc_a_at := Some (link "Paper" "/view?p=1");
                     gs_gray := [text "A Smith"; text "Venue 2020"] |} ];
     rsb_std_1 := Some (text "120"); rsb_std_2 := Some (text "7");
     rsb_std_3 := None |}.

(** A network without state that answers every request with one page. *)
Definition serve (pg : Page) : str → unit → res Page * unit :=
  λ _ w, (Ok pg, w).

(** A network that is down. *)
Definition down : str → unit → res Page * unit :=
  λ _ w, (Raise RequestException, w).


(** A network that counts the requests it has answered. *)
Definition counting (pg : Page) : str → N → res Page * N :=
  λ _ n, (Ok pg, n + 1).

Definition paper_x : paper :=
  {[ "title" := FStr (lit "X"); "authors" := FStr (lit "A. Smith, B. Lee, B. Lee") ]}.

Definition paper_y : paper :=
  {[ "title" := FStr (lit "Y"); "authors" := FStr (lit "B. Lee") ]}.

(** A paper record whose author list is [None]. *)
Definition paper_no_authors : paper :=
  {[ "title" := FStr (lit "X"); "authors" := FNone ]}.

(** A paper record whose title holds the lone surrogate U+D800. *)
Definition paper_surrogate : paper :=
  {[ "title" := FStr [55296]; "authors" := FStr (lit "B. Lee") ]}.

End Sample.

(** ** The metadata feed (arxiv.py) *)

Module Arxiv.

(** The exceptions that [fetch_arxiv_data] can meet. *)
Inductive error :=
| ValueError
| IndexError.

Inductive outcome (A : Type) :=
| Done (a : A)
| Failed (e : error).
Arguments Done {A} a.
Arguments Failed {A} e.

(** [s.split(sep)] for a separator of one or more code points: [skip] code
    points of a separator just found are still to be passed over, [cur] is
    the token under construction, reversed. *)
Fixpoint split_str_from (sep : str) (skip : nat) (cur : str) (s : str)
  : list str :=
  match s with
  | [] => [rev cur]
  | c :: s' =>
      match skip with
      | S k => split_str_from sep k cur s'
      | O =>
          if starts_with sep s
          then rev cur :: split_str_from sep (length sep - 1) [] s'
          else split_str_from sep 0 (c :: cur) s'
      end
  end.

Definition split_str (sep : str) (s : str) : list str :=
  split_str_from sep 0 [] s.

(** [sep.join(l)] *)
Fixpoint join_str (sep : str) (l : list str) : str :=
  match l with
  | [] => []
  | [s] => s
  | s :: l' => s ++ sep ++ join_str sep l'
  end.

(** [s.replace(old, new)] for one-character [old] and [new]. *)
Definition replace_char (old new : N) (s : str) : str :=
  (λ c, if c =? old then new else c) <$> s.

(** An entry of the parsed feed, as the code reads it: the attributes read
    without a default, the author names, the terms of the tags, and the
    keys read with [entry.get(key, None)]. *)
Record Entry := {
  id : str;
  published : str;
  authors : list str;              (* author.name for author in entry.authors *)
  title : str;
  summary : str;
  tags : list field;               (* tag['term'] for tag in entry.tags *)
  arxiv_comment : option str;
  arxiv_journal_ref : option str;
  arxiv_doi : option str;
  arxiv_report_no : option str;
  arxiv_license : option str
}.

(** [entry.get(key, None)] as a value of the paper record. *)
Definition get_or_none (v : option str) : field :=
  match v with
  | Some s => FStr s
  | None => FNone
  end.

(** [l[-1]] *)
Definition last_item {A} (l : list A) : outcome A :=
  match last l with
  | Some x => Done x
  | None => Failed IndexError
  end.


Section Feed.

(** [datetime.strptime(s, '%Y-%m-%dT%H:%M:%SZ').strftime('%Y-%m-%d')]:
    the date of a timestamp, or nothing when [strptime] raises
    [ValueError]. *)
Variable reformat_date : str → option str.

(** [feedparser.parse(feed_url).entries] *)
Variable feed_entries : str → list Entry.

(** The body of the loop of [fetch_arxiv_data]: the paper record of one
    entry. *)
Definition paper_of_entry (entry : Entry) : outcome paper :=
  match reformat_date (published entry) with
  | None => Failed ValueError
  | Some published_date =>
      match last_item (split_str (lit "/abs/") (id entry)) with
      | Failed e => Failed e
      | Done paper_id =>
          Done
            (<["id" := FStr paper_id]>
            (<["submitter" := FNone]>
            (<["published" := FStr published_date]>
            (<["authors" := FStr (join_str (lit ", ") (authors entry))]>
            (<["title" := FStr (replace_char 10 32 (strip (title entry)))]>
            (<["comments" := get_or_none (arxiv_comment entry)]>
            (<["journal-ref" := get_or_none (arxiv_journal_ref entry)]>
            (<["doi" := get_or_none (arxiv_doi entry)]>
            (<["report-no" := get_or_none (arxiv_report_no entry)]>
            (<["categories" := match tags entry with
                               | term :: _ => term
                               | [] => FNone
                               end]>
            (<["license" := get_or_none (arxiv_license entry)]>
            (<["abstract" := FStr (replace_char 10 32 (strip (summary entry)))]>
             ∅))))))))))))
      end
  end.



End Feed.

End Arxiv.

(** ** Vocabulary of the further statements *)

(** The seconds slept in a trace. *)
Definition slept (tr : list event) : N :=
  foldr (λ e n, match e with Sleep secs => secs + n | Get _ => n end) 0 tr.

(** The requests that account for an output: one search for each paper, one
    author search for each author entry, one profile fetch for each record
    of a profile list. *)
Definition requests_of_author (a : AuthorEntry) : nat :=
  S (length (profiles a)).

Definition requests_of_entry (e : PaperEntry) : nat :=
  S (sum_list (requests_of_author <$> authors_details e)).

Definition requests_of_output (out : list PaperEntry) : nat :=
  sum_list (requests_of_entry <$> out).

(** A name that the author list gives back: not empty, without comma,
    without whitespace at either end. *)
Definition clean_name (a : str) : Prop :=
  a ≠ []
  ∧ (44 ∉ a)
  ∧ (∀ c, head a = Some c → isspace c = false)
  ∧ (∀ c, last a = Some c → isspace c = false).

(** The keys of the extracted records. *)
Definition search_keys : gset string :=
  {[ "title"; "title_link"; "id"; "displayed_link"; "snippet";
     "cited_by_count"; "cited_link"; "versions_count"; "versions_link" ]}.

Definition candidate_keys : gset string :=
  {[ "name"; "name_link"; "position"; "email"; "departments";
     "cited_by_count" ]}.

Definition article_keys : gset string :=
  {[ "title"; "link"; "authors"; "publication" ]}.

Definition detail_keys : gset string :=
  {[ "name"; "position"; "email"; "departments"; "articles";
     "citation_metrics" ]}.

(** The link composed from an anchor: the scholar host and the [href] of
    the anchor, if any. *)
Definition host_link (a : Tag) : str :=
  scholar_base ++ default [] (attrs a !! "href").

(** The anchor that follows the first [a ~ a] element of a search block. *)
Definition versions_anchor (el : SearchBlock) : option Tag :=
  match a_sib_a el with
  | first :: _ => find_next_sibling_a first
  | [] => None
  end.

(** The [href] of the first anchor under a heading. *)
Definition heading_href (h : option Heading) : option str :=
  match h with
  | Some t =>
      match find_a t with
      | Some a => attrs a !! "href"
      | None => None
      end
  | None => None
  end.

(** A value that the filter of empty fields keeps. *)
Definition kept (v : option str) : option str :=
  match v with
  | Some [] => None
  | other => other
  end.

(** A block whose citation element has no token: its text is empty or
    whitespace only. *)
Definition no_citation_token (el : UserBlock) : Prop :=
  ∃ cited, gs_ai_cby el = Some cited
           ∧ Forall (λ c, isspace c = true) (get_text cited).

(** The last token of the citation element of a block, if any. *)
Definition citation_token (el : UserBlock) : option str :=
  match gs_ai_cby el with
  | Some cited => last (split_ws (get_text cited))
  | None => None
  end.

(** The text of an identity element of a profile page, as a value. *)
Definition identity_value (t : option Tag) (candidate : option str)
  : option value :=
  match t with
  | Some el => Some (VStr (get_text el))
  | None => VStr <$> candidate
  end.

(** The keys of a paper record of the feed client. *)
Definition paper_keys : gset string :=
  {[ "id"; "submitter"; "published"; "authors"; "title"; "comments";
     "journal-ref"; "doi"; "report-no"; "categories"; "license";
     "abstract" ]}.

(** ** A sample feed entry *)

Module FeedSample.

Definition entry : Arxiv.Entry :=
  {| Arxiv.id := lit "http://arxiv.org/abs/2101.00001v1";
     Arxiv.published := lit "2021-01-01T12:00:00Z";
     Arxiv.authors := [lit "A. Smith"; lit "B. Lee"];
     Arxiv.title := lit " A" ++ [10] ++ lit "title ";
     Arxiv.summary := lit "Text.";
     Arxiv.tags := [FStr (lit "cs.AI")];
     Arxiv.arxiv_comment := None;
     Arxiv.arxiv_journal_ref := None;
     Arxiv.arxiv_doi := None;
     Arxiv.arxiv_report_no := None;
     Arxiv.arxiv_license := None |}.

(** A date reader that accepts every timestamp and keeps its first ten
    code points. *)
Definition date_of (s : str) : option str := Some (take 10 s).

End FeedSample.

(** The link of an article: the scholar host and the [href] of the title
    anchor, when that [href] is not empty. *)
Definition article_link (el : ArticleBlock) : option str :=
  match gsc_a_at el with
  | Some title_el =>
      match attrs title_el !! "href" with
      | Some (c :: href) => Some (scholar_base ++ c :: href)
      | _ => None
      end
  | None => None
  end.

(** * Properties *)

(** ** Dictionaries *)

Lemma remove_empty_lookup (d : fields) (k : string) (v : str) :
  remove_empty d !! k = Some v ↔ d !! k = Some v ∧ v ≠ [].
Proof. unfold remove_empty. by rewrite map_lookup_filter_Some. Qed.

Lemma remove_empty_no_empty_value (d : fields) : no_empty_value (remove_empty d).
Proof.
  intros k v Hkv. apply remove_empty_lookup in Hkv. by destruct Hkv.
Qed.

Lemma remove_empty_lookup_None (d : fields) (k : string) :
  d !! k = None → remove_empty d !! k = None.
Proof.
  intros Hk. destruct (remove_empty d !! k) as [v|] eqn:E; [|done].
  apply remove_empty_lookup in E. destruct E as [E _]. congruence.
Qed.

(** ** Extraction never leaves an empty value *)

Lemma scholar_result_no_empty (el : SearchBlock) (r : fields) :
  scholar_result el = Ok r → no_empty_value r.
Proof.
  unfold scholar_result. intros [= <-]. apply remove_empty_no_empty_value.
Qed.

Lemma scholar_result_total (el : SearchBlock) : ∃ r, scholar_result el = Ok r.
Proof. unfold scholar_result. eauto. Qed.

Lemma scholar_results_from_no_empty (els : list SearchBlock) (acc : list fields) :
  Forall no_empty_value acc →
  Forall no_empty_value
    (fold_left
       (λ results el,
          match scholar_result el with
          | Ok result => results ++ [result]
          | Raise _ => results
          end) els acc).
Proof.
  revert acc. induction els as [|el els IH]; intros acc Hacc; simpl; [done|].
  apply IH. destruct (scholar_result el) as [r|e] eqn:E; [|done].
  apply Forall_app. split; [done|].
  apply Forall_singleton. by eapply scholar_result_no_empty.
Qed.

Lemma scholar_results_no_empty (els : list SearchBlock) :
  Forall no_empty_value (scholar_results els).
Proof. apply scholar_results_from_no_empty. constructor. Qed.

Lemma scholar_profile_no_empty (el : UserBlock) (c : fields) :
  scholar_profile el = Ok c → no_empty_value c.
Proof.
  unfold scholar_profile. destruct (gs_ai_cby el) as [cited_el|].
  - destruct (last_item _); [|done].
    intros [= <-]. apply remove_empty_no_empty_value.
  - intros [= <-]. apply remove_empty_no_empty_value.
Qed.

Lemma scholar_profiles_no_empty (els : list UserBlock) (acc l : list fields) :
  Forall no_empty_value acc →
  scholar_profiles acc els = Ok l →
  Forall no_empty_value l.
Proof.
  revert acc. induction els as [|el els IH]; intros acc Hacc; simpl.
  - by intros [= <-].
  - destruct (scholar_profile el) as [c|e] eqn:E; [|done].
    apply IH. apply Forall_app. split; [done|].
    apply Forall_singleton. by eapply scholar_profile_no_empty.
Qed.

Lemma profile_article_no_empty (el : ArticleBlock) :
  no_empty_value (profile_article el).
Proof. unfold profile_article. apply remove_empty_no_empty_value. Qed.

(** ** The shape of a profile detail *)

Lemma profile_data_of_articles (soup : Page) :
  profile_data_of soup !! "articles"
  = Some (VArticles (profile_article <$> gsc_a_t soup)).
Proof. unfold profile_data_of. by simplify_map_eq. Qed.

Lemma profile_data_of_metrics (soup : Page) :
  profile_data_of soup !! "citation_metrics"
  = Some (VMetrics [metric_row "citations" (rsb_std_1 soup);
                    metric_row "h_index" (rsb_std_2 soup);
                    metric_row "i_index" (rsb_std_3 soup)]).
Proof. unfold profile_data_of. by simplify_map_eq. Qed.

Lemma profile_data_of_no_link (soup : Page) :
  profile_data_of soup !! "name_link" = None.
Proof.
  unfold profile_data_of.
  destruct (gsc_prf_in soup), (gsc_prf_il soup), (gsc_prf_ivh soup),
    (gsc_prf_int soup); by simplify_map_eq.
Qed.

(** ** The resolvers, equationally *)

Section Resolvers.

Context {W : Type} (http : str → W → res Page * W).

Lemma get_author_profile_data_ok url w page w1 :
  http url w = (Ok page, w1) →
  get_author_profile_data http url w
  = (Ok (profile_data_of page), w1, [Get url]).
Proof.
  intros H. unfold get_author_profile_data, try_except, bind, requests_get, ret.
  rewrite H. reflexivity.
Qed.

Lemma get_author_profile_data_raise url w e w1 :
  http url w = (Raise e, w1) →
  get_author_profile_data http url w = (Ok ∅, w1, [Get url]).
Proof.
  intros H. unfold get_author_profile_data, try_except, bind, requests_get, ret.
  rewrite H. reflexivity.
Qed.

(** The profile resolver never raises and issues exactly one request. *)
Lemma get_author_profile_data_total url w :
  ∃ d w1, get_author_profile_data http url w = (Ok d, w1, [Get url])
          ∧ (d = ∅ ∨ ∃ page, d = profile_data_of page).
Proof.
  destruct (http url w) as [[page|e] w1] eqn:E.
  - exists (profile_data_of page), w1. split; [by apply get_author_profile_data_ok|].
    right. by exists page.
  - exists ∅, w1. split; [by eapply get_author_profile_data_raise|]. by left.
Qed.

Lemma get_scholar_data_ok query q w page w1 :
  quote query = Ok q →
  http (search_base ++ q) w = (Ok page, w1) →
  get_scholar_data http query w
  = (Ok (scholar_results (gs_r page)), w1, [Get (search_base ++ q)]).
Proof.
  intros Hq H.
  unfold get_scholar_data, try_except, bind, lift, requests_get, ret.
  rewrite Hq, H. reflexivity.
Qed.

Lemma get_scholar_data_raise query q w e w1 :
  quote query = Ok q →
  http (search_base ++ q) w = (Raise e, w1) →
  get_scholar_data http query w = (Ok [], w1, [Get (search_base ++ q)]).
Proof.
  intros Hq H.
  unfold get_scholar_data, try_except, bind, lift, requests_get, ret.
  rewrite Hq, H. reflexivity.
Qed.

Lemma get_scholar_data_unquotable query e w :
  quote query = Raise e →
  get_scholar_data http query w = (Raise e, w, []).
Proof.
  intros Hq. unfold get_scholar_data, bind, lift. rewrite Hq. reflexivity.
Qed.

Lemma get_scholar_data_total query q w :
  quote query = Ok q →
  ∃ results w1,
    get_scholar_data http query w = (Ok results, w1, [Get (search_base ++ q)]).
Proof.
  intros Hq. destruct (http (search_base ++ q) w) as [[page|e] w1] eqn:E.
  - eexists _, _. by apply get_scholar_data_ok.
  - eexists _, _. by eapply get_scholar_data_raise.
Qed.

Lemma get_scholar_profiles_ok author q w page w1 :
  quote author = Ok q →
  http (authors_base ++ q) w = (Ok page, w1) →
  get_scholar_profiles http author w
  = (match scholar_profiles [] (gsc_1usr page) with
     | Ok cands => Ok cands
     | Raise _ => Ok []
     end, w1, [Get (authors_base ++ q)]).
Proof.
  intros Hq H.
  unfold get_scholar_profiles, try_except, bind, lift, requests_get, ret.
  rewrite Hq, H. destruct (scholar_profiles [] (gsc_1usr page)); reflexivity.
Qed.

Lemma get_scholar_profiles_raise author q w e w1 :
  quote author = Ok q →
  http (authors_base ++ q) w = (Raise e, w1) →
  get_scholar_profiles http author w = (Ok [], w1, [Get (authors_base ++ q)]).
Proof.
  intros Hq H.
  unfold get_scholar_profiles, try_except, bind, lift, requests_get, ret.
  rewrite Hq, H. reflexivity.
Qed.

Lemma get_scholar_profiles_unquotable author e w :
  quote author = Raise e →
  get_scholar_profiles http author w = (Raise e, w, []).
Proof.
  intros Hq. unfold get_scholar_profiles, bind, lift. rewrite Hq. reflexivity.
Qed.

End Resolvers.

(** ** Merge of a candidate and its detail *)

(** C6. The merged record [{**profile, **profile_data}] is the shallow union
    of the candidate and the detail: at every key, the value of the detail
    when the detail has the key (also when the candidate has it too), else
    the value of the candidate when the candidate has it, else nothing; its
    keys are the keys of either. *)
Theorem combine_merge_law (c : fields) (d : gmap string value) :
  (∀ k, combine c d !! k
        = match d !! k with
          | Some v => Some v
          | None => VStr <$> c !! k
          end)
  ∧ dom (combine c d) = dom d ∪ dom c.
Proof.
  split.
  - intros k. unfold combine. rewrite lookup_union, lookup_fmap.
    destruct (d !! k), (c !! k); reflexivity.
  - unfold combine. by rewrite dom_union_L, dom_fmap_L.
Qed.

Lemma combine_empty (c : fields) : combine c ∅ = VStr <$> c.
Proof. unfold combine. by rewrite (left_id_L ∅ (∪)). Qed.


(** ** Shape of the profile resolver's result *)

(** One slot of the citation table: empty, or the one key with its
    ["all"] text. *)
Lemma metric_row_shape (key : string) (cell : option Tag) :
  metric_row key cell = ∅
  ∨ ∃ text, metric_row key cell = {[ key := {[ "all" := text ]} ]}.
Proof. destruct cell as [c|]; [right; by exists (get_text c) | by left]. Qed.

(** C10. When the fetch of a profile returns a page, the profile resolver
    returns a record that has the key ["articles"] and the key
    ["citation_metrics"], the latter holding exactly three slots (for
    citations, h-index and i-index, in this order), each empty or holding
    its one entry; when the fetch raises, the resolver returns the empty
    record, which has neither key. *)
Theorem profile_detail_shape {W : Type} (http : str → W → res Page * W)
    (url : str) (w : W) :
  match http url w with
  | (Ok page, w1) =>
      ∃ d articles r1 r2 r3,
        get_author_profile_data http url w = (Ok d, w1, [Get url])
        ∧ d !! "articles" = Some (VArticles articles)
        ∧ d !! "citation_metrics" = Some (VMetrics [r1; r2; r3])
        ∧ (r1 = ∅ ∨ ∃ t, r1 = {[ "citations" := {[ "all" := t ]} ]})
        ∧ (r2 = ∅ ∨ ∃ t, r2 = {[ "h_index" := {[ "all" := t ]} ]})
        ∧ (r3 = ∅ ∨ ∃ t, r3 = {[ "i_index" := {[ "all" := t ]} ]})
  | (Raise _, w1) =>
      ∃ d,
        get_author_profile_data http url w = (Ok d, w1, [Get url])
        ∧ d = ∅
        ∧ d !! "articles" = None
        ∧ d !! "citation_metrics" = None
  end.
Proof.
  destruct (http url w) as [[page|e] w1] eqn:E.
  - exists (profile_data_of page). do 4 eexists.
    split; [by apply get_author_profile_data_ok|].
    split; [apply profile_data_of_articles|].
    split; [apply profile_data_of_metrics|].
    repeat split; apply metric_row_shape.
  - exists ∅. split; [by eapply get_author_profile_data_raise|]. done.
Qed.

(** ** No empty value in the extracted records *)

(** C4, as stated, fails on the profile detail. For the profile page
    [Sample.bare_profile] (an empty name element, no article, no citation
    cell) the returned record has the key ["name"] with the empty string,
    the key ["articles"] with the empty list and three empty citation
    slots. *)
Lemma profile_detail_keeps_empty_values :
  ∃ d,
    (get_author_profile_data (Sample.serve Sample.bare_profile)
       (lit "https://scholar.google.com/citations?user=u1") tt).1.1 = Ok d
    ∧ d !! "name" = Some (VStr [])
    ∧ d !! "articles" = Some (VArticles [])
    ∧ d !! "citation_metrics" = Some (VMetrics [∅; ∅; ∅]).
Proof. eexists. split; [reflexivity|]. repeat split. Qed.

(** C4, amended. Every search result, every profile candidate and every
    article entry of a profile detail has no key with an empty value. The
    profile detail itself is not filtered: after a successful fetch it has
    its ["articles"] and ["citation_metrics"] keys whatever they hold. *)
Theorem extracted_records_no_empty_value {W : Type}
    (http : str → W → res Page * W) :
  (∀ query w results w1 tr,
     get_scholar_data http query w = (Ok results, w1, tr) →
     Forall no_empty_value results)
  ∧ (∀ author w cands w1 tr,
       get_scholar_profiles http author w = (Ok cands, w1, tr) →
       Forall no_empty_value cands)
  ∧ (∀ url w page w1,
       http url w = (Ok page, w1) →
       ∃ d articles table,
         get_author_profile_data http url w = (Ok d, w1, [Get url])
         ∧ d !! "articles" = Some (VArticles articles)
         ∧ Forall no_empty_value articles
         ∧ d !! "citation_metrics" = Some (VMetrics table)).
Proof.
  split; [|split].
  - intros query w results w1 tr.
    destruct (quote query) as [q|e] eqn:Hq.
    + destruct (http (search_base ++ q) w) as [[page|e] w2] eqn:E.
      * rewrite (get_scholar_data_ok http _ _ _ _ _ Hq E).
        intros [= <- _ _]. apply scholar_results_no_empty.
      * rewrite (get_scholar_data_raise http _ _ _ _ _ Hq E).
        intros [= <- _ _]. constructor.
    + by rewrite (get_scholar_data_unquotable http _ _ _ Hq).
  - intros author w cands w1 tr.
    destruct (quote author) as [q|e] eqn:Hq.
    + destruct (http (authors_base ++ q) w) as [[page|e] w2] eqn:E.
      * rewrite (get_scholar_profiles_ok http _ _ _ _ _ Hq E).
        destruct (scholar_profiles [] (gsc_1usr page)) as [l|e] eqn:El.
        -- intros [= <- _ _].
           eapply scholar_profiles_no_empty; [|exact El]. constructor.
        -- intros [= <- _ _]. constructor.
      * rewrite (get_scholar_profiles_raise http _ _ _ _ _ Hq E).
        intros [= <- _ _]. constructor.
    + by rewrite (get_scholar_profiles_unquotable http _ _ _ Hq).
  - intros url w page w1 E.
    exists (profile_data_of page). do 2 eexists.
    split; [by apply get_author_profile_data_ok|].
    split; [apply profile_data_of_articles|].
    split; [|apply profile_data_of_metrics].
    apply Forall_fmap, Forall_forall. intros el _. apply profile_article_no_empty.
Qed.

Lemma extracted_records_no_empty_value_witness :
  Forall no_empty_value [ ({[ "title" := lit "X"; "title_link" := lit "http://x";
                              "displayed_link" := lit "A Smith - 2020" ]} : fields) ]
  ∧ Forall no_empty_value [ ({[ "name" := lit "B. Lee" ]} : fields) ]
  ∧ ∃ d articles table,
      get_author_profile_data (Sample.serve Sample.full_profile) (lit "u") tt
      = (Ok d, tt, [Get (lit "u")])
      ∧ d !! "articles" = Some (VArticles articles)
      ∧ Forall no_empty_value articles
      ∧ d !! "citation_metrics" = Some (VMetrics table).
Proof.
  destruct (extracted_records_no_empty_value
              (Sample.serve
                 (Sample.page_of [Sample.block] [Sample.user_unlinked])))
    as (Hs & Hc & _).
  destruct (extracted_records_no_empty_value (Sample.serve Sample.full_profile))
    as (_ & _ & Hd).
  split; [|split].
  - apply (Hs (lit "X") tt _ tt [Get (search_base ++ lit "X")]).
    vm_compute. reflexivity.
  - apply (Hc (lit "B. Lee") tt _ tt [Get (authors_base ++ lit "B.%20Lee")]).
    vm_compute. reflexivity.
  - apply (Hd (lit "u") tt Sample.full_profile tt). reflexivity.
Defined.

(** ** The orchestrator's loops *)

Lemma requests_app (t1 t2 : list event) :
  requests (t1 ++ t2) = requests t1 ++ requests t2.
Proof. unfold requests. apply omap_app. Qed.

Lemma bind_ok {W A B} (m : M W A) (k : A → M W B) w a w1 t1 :
  m w = (Ok a, w1, t1) →
  bind m k w = (let '(r, w2, t2) := k a w1 in (r, w2, t1 ++ t2)).
Proof. intros H. unfold bind. by rewrite H. Qed.

Lemma bind_raise {W A B} (m : M W A) (k : A → M W B) w e w1 t1 :
  m w = (Raise e, w1, t1) →
  bind m k w = (Raise e, w1, t1).
Proof. intros H. unfold bind. by rewrite H. Qed.

Section Loops.

Context {W : Type} (http : str → W → res Page * W).

Lemma detail_profiles_cons_linked c rest url w d w1 more w2 tr :
  c !! "name_link" = Some url →
  get_author_profile_data http url w = (Ok d, w1, [Get url]) →
  detail_profiles http rest w1 = (Ok more, w2, tr) →
  detail_profiles http (c :: rest) w
  = (Ok (combine c d :: more), w2, Get url :: Sleep 1 :: tr).
Proof.
  intros Hl Hd Hrest. simpl. rewrite Hl.
  rewrite (bind_ok _ _ _ _ _ _ Hd).
  unfold bind at 1. unfold sleep at 1.
  rewrite (bind_ok _ _ _ _ _ _ Hrest). unfold ret.
  by rewrite app_nil_r.
Qed.

Lemma detail_profiles_cons_unlinked c rest w :
  c !! "name_link" = None →
  detail_profiles http (c :: rest) w = detail_profiles http rest w.
Proof. intros Hl. simpl. by rewrite Hl. Qed.

(** The profile loop never raises; it appends one merged record for each
    candidate with a link, in order, after one request to that link. *)
Lemma detail_profiles_spec (cands : list fields) (w : W) :
  ∃ detailed w' tr,
    detail_profiles http cands w = (Ok detailed, w', tr)
    ∧ Forall2
        (λ c m, ∃ d, m = combine c d
                     ∧ (d = ∅ ∨ ∃ page, d = profile_data_of page))
        (linked cands) detailed
    ∧ requests tr = omap (λ c : fields, c !! "name_link") cands.
Proof.
  revert w. induction cands as [|c rest IH]; intros w.
  - exists [], w, []. repeat split. constructor.
  - destruct (c !! "name_link") as [url|] eqn:Hl.
    + destruct (get_author_profile_data_total http url w)
        as (d & w1 & Hd & Hshape).
      destruct (IH w1) as (more & w2 & tr & Hrest & HF & Hreq).
      exists (combine c d :: more), w2, (Get url :: Sleep 1 :: tr).
      split; [by eapply detail_profiles_cons_linked|]. split.
      * unfold linked. rewrite filter_cons_True by (by rewrite Hl).
        constructor; [by exists d | exact HF].
      * simpl. rewrite Hl. simpl. by f_equal.
    + destruct (IH w) as (more & w2 & tr & Hrest & HF & Hreq).
      exists more, w2, tr.
      split; [by rewrite detail_profiles_cons_unlinked|]. split.
      * unfold linked. rewrite filter_cons_False; [exact HF|].
        rewrite Hl. by intros [? ?].
      * simpl. by rewrite Hl.
Qed.

End Loops.

(** ** Candidates without a profile link *)



(** ** Failure of one field of a candidate *)

(** [s.split()] is empty exactly when [s] holds whitespace only. *)
Lemma split_ws_from_nil (cur s : str) :
  split_ws_from cur s = [] ↔ cur = [] ∧ Forall (λ c, isspace c = true) s.
Proof.
  revert cur. induction s as [|c s IH]; intros cur; simpl.
  - destruct cur; simpl; split; try done. by intros [? _].
  - destruct (isspace c) eqn:Hc.
    + destruct cur as [|d cur]; simpl.
      * rewrite IH. split; intros [? H]; (split; [done|]).
        -- by constructor.
        -- by inversion H.
      * split; [done | by intros [? _]].
    + rewrite IH. split; [by intros [? _]|].
      intros [_ H]. inversion H; congruence.
Qed.

Lemma split_ws_nil (s : str) :
  split_ws s = [] ↔ Forall (λ c, isspace c = true) s.
Proof.
  unfold split_ws. rewrite split_ws_from_nil.
  split; [by intros [_ ?] | by split].
Qed.

(** The extraction of a candidate raises exactly when the block has a
    citation element whose text holds no token; the exception is the
    [IndexError] of [[-1]]. *)
Lemma scholar_profile_raises_iff (el : UserBlock) (e : exn) :
  scholar_profile el = Raise e
  ↔ e = IndexError
    ∧ ∃ cited, gs_ai_cby el = Some cited
               ∧ Forall (λ c, isspace c = true) (get_text cited).
Proof.
  unfold scholar_profile. destruct (gs_ai_cby el) as [cited|].
  - unfold last_item.
    destruct (last (split_ws (get_text cited))) as [tok|] eqn:El.
    + split; [done|]. intros (_ & cited' & [= <-] & Hws).
      apply split_ws_nil in Hws. rewrite Hws in El. done.
    + apply last_None, split_ws_nil in El.
      split; [intros [= <-]; eauto | by intros [-> _]].
  - split; [done|]. by intros (_ & ? & ? & _).
Qed.

(** C2 at a failing input. The author page holds two candidates; the
    second one has a name, a link, an affiliation and a citation element
    without text. Extraction of [cited_by_count] raises [IndexError] for
    it, and the author resolver returns no candidate at all, although the
    first candidate is extracted without failure and the second one has
    three other fields, as the same block without the citation element
    shows. *)
Theorem empty_citation_element_loses_all_candidates :
  scholar_profile Sample.user_linked
  = Ok {[ "name" := lit "A. Smith";
          "name_link" := lit "https://scholar.google.com/citations?user=u1";
          "position" := lit "MIT";
          "cited_by_count" := lit "12" ]}
  ∧ scholar_profile Sample.user_uncited = Raise IndexError
  ∧ scholar_profile
      {| gs_ai_name := gs_ai_name Sample.user_uncited;
         gs_ai_aff := gs_ai_aff Sample.user_uncited;
         gs_ai_eml := gs_ai_eml Sample.user_uncited;
         gs_ai_int := gs_ai_int Sample.user_uncited;
         gs_ai_cby := None |}
    = Ok {[ "name" := lit "B. Lee";
            "name_link" := lit "https://scholar.google.com/citations?user=u2";
            "position" := lit "ETH" ]}
  ∧ get_scholar_profiles
      (Sample.serve
         (Sample.page_of [] [Sample.user_linked; Sample.user_uncited]))
      (lit "B. Lee") tt
    = (Ok [], tt, [Get (authors_base ++ lit "B.%20Lee")]).
Proof. repeat split; vm_compute; reflexivity. Qed.

(** ** The string functions on examples *)

Example split_keeps_empty_tokens :
  split 44 (lit "a,,b,") = [lit "a"; []; lit "b"; []].
Proof. reflexivity. Qed.

Example strip_both_ends : strip (9 :: 160 :: lit " B. Lee  ") = lit "B. Lee".
Proof. reflexivity. Qed.

Example split_ws_tokens :
  split_ws (lit "  Cited by   12 ") = [lit "Cited"; lit "by"; lit "12"].
Proof. reflexivity. Qed.

Example split_ws_no_token : last_item (split_ws (lit "   ")) = Raise IndexError.
Proof. reflexivity. Qed.

Example quote_query : quote (34 :: lit "A b" ++ [34]) = Ok (lit "%22A%20b%22").
Proof. reflexivity. Qed.

Example quote_e_acute : quote [233] = Ok (lit "%C3%A9").
Proof. reflexivity. Qed.

Example quote_lone_surrogate : quote [55296] = Raise UnicodeEncodeError.
Proof. reflexivity. Qed.

(** ** Strings that [quote] accepts *)

Lemma encodable_Forall (s : str) :
  encodable s = true ↔ Forall (λ c, is_surrogate c = false) s.
Proof.
  unfold encodable. rewrite forallb_forall, Forall_forall.
  split; intros H c Hc.
  - apply list_elem_of_In, H in Hc. by apply negb_true_iff.
  - apply negb_true_iff, H. by apply list_elem_of_In.
Qed.

Lemma utf8_not_surrogate (c : N) :
  is_surrogate c = false → ∃ bs, utf8 c = Ok bs.
Proof.
  intros Hc. unfold utf8. rewrite Hc.
  destruct (c <? 128), (c <? 2048), (c <? 65536); eauto.
Qed.

Lemma utf8_surrogate (c : N) :
  is_surrogate c = true → utf8 c = Raise UnicodeEncodeError.
Proof.
  intros Hc. unfold utf8. rewrite Hc.
  unfold is_surrogate in Hc. apply andb_true_iff in Hc as [H1 H2].
  apply N.leb_le in H1.
  destruct (N.ltb_spec c 128); [lia|].
  destruct (N.ltb_spec c 2048); [lia|]. reflexivity.
Qed.

Lemma encode_utf8_encodable (s : str) :
  encodable s = true → ∃ bs, encode_utf8 s = Ok bs.
Proof.
  rewrite encodable_Forall. induction 1 as [|c s Hc _ [bs' IH]]; simpl.
  - eauto.
  - destruct (utf8_not_surrogate c Hc) as [bs ->]. rewrite IH. eauto.
Qed.

(** [quote] succeeds on a string without lone surrogate. *)
Lemma quote_encodable (s : str) :
  encodable s = true → quote s = Ok (quoted s).
Proof.
  intros H. unfold quoted, quote.
  by destruct (encode_utf8_encodable s H) as [bs ->].
Qed.

(** [quote] raises on any other string. *)
Lemma quote_not_encodable (s : str) :
  encodable s = false → quote s = Raise UnicodeEncodeError.
Proof.
  unfold quote. induction s as [|c s IH]; simpl; [done|].
  destruct (is_surrogate c) eqn:Hc; simpl.
  - intros _. by rewrite (utf8_surrogate c Hc).
  - intros H. destruct (utf8_not_surrogate c Hc) as [bs ->].
    specialize (IH H). by destruct (encode_utf8 s).
Qed.

(** ** [strip] and [split] *)

Lemma lstrip_Forall (P : N → Prop) (s : str) :
  Forall P s → Forall P (lstrip s).
Proof.
  induction 1 as [|c s Hc Hs IH]; simpl; [constructor|].
  destruct (isspace c); [exact IH | by constructor].
Qed.

Lemma strip_Forall (P : N → Prop) (s : str) :
  Forall P s → Forall P (strip s).
Proof.
  intros H. unfold strip, rstrip.
  apply Forall_rev, lstrip_Forall, Forall_rev, lstrip_Forall, H.
Qed.

Lemma split_nonempty (sep : N) (s : str) : split sep s ≠ [].
Proof.
  induction s as [|c s IH]; simpl; [done|].
  destruct (c =? sep); [done|]. by destruct (split sep s).
Qed.

Lemma split_Forall (P : N → Prop) (sep : N) (s : str) :
  Forall P s → Forall (Forall P) (split sep s).
Proof.
  induction 1 as [|c s Hc Hs IH]; simpl.
  - by repeat constructor.
  - destruct (c =? sep); [by constructor|].
    destruct (split sep s) as [|tok toks]; [by repeat constructor|].
    inversion IH; subst. by repeat constructor.
Qed.

(** Joining the tokens with the separator gives the string back. *)
Lemma join_split (sep : N) (s : str) : join sep (split sep s) = s.
Proof.
  induction s as [|c s IH]; simpl; [done|].
  destruct (N.eqb_spec c sep) as [->|Hne].
  - pose proof (split_nonempty sep s).
    destruct (split sep s) as [|tok toks]; [done|]. simpl in *. by rewrite IH.
  - pose proof (split_nonempty sep s).
    destruct (split sep s) as [|tok toks]; [done|].
    destruct toks; simpl in *; by rewrite <- IH.
Qed.

(** No token holds the separator. *)
Lemma split_no_sep (sep : N) (s : str) :
  Forall (λ tok, sep ∉ tok) (split sep s).
Proof.
  induction s as [|c s IH]; simpl.
  - repeat constructor. apply not_elem_of_nil.
  - destruct (N.eqb_spec c sep) as [->|Hne].
    + constructor; [apply not_elem_of_nil | exact IH].
    + destruct (split sep s) as [|tok toks].
      * repeat constructor. intros ->%list_elem_of_singleton. done.
      * inversion IH; subst. constructor; [|done].
        intros [->|?]%elem_of_cons; done.
Qed.

(** [lstrip] removes a prefix of whitespace and stops at a code point that
    is not whitespace. *)
Lemma lstrip_spec (s : str) :
  ∃ ws, s = ws ++ lstrip s
        ∧ Forall (λ c, isspace c = true) ws
        ∧ match lstrip s with
          | c :: _ => isspace c = false
          | [] => True
          end.
Proof.
  induction s as [|c s (ws & Hs & Hws & Hhd)]; simpl.
  - by exists [].
  - destruct (isspace c) eqn:Hc.
    + exists (c :: ws). split; [simpl; by f_equal|]. split; [by constructor|done].
    + by exists [].
Qed.

(** [strip] removes whitespace at both ends, and only there. *)
Lemma strip_spec (s : str) :
  ∃ l r, s = l ++ strip s ++ r
         ∧ Forall (λ c, isspace c = true) l
         ∧ Forall (λ c, isspace c = true) r
         ∧ match strip s with
           | c :: _ => isspace c = false
           | [] => True
           end
         ∧ match last (strip s) with
           | Some c => isspace c = false
           | None => True
           end.
Proof.
  destruct (lstrip_spec s) as (l & Hl & Hlws & Hlhd).
  destruct (lstrip_spec (rev (lstrip s))) as (r & Hr & Hrws & Hrhd).
  exists l, (rev r). unfold strip, rstrip.
  set (t := lstrip (rev (lstrip s))) in *.
  assert (Ht : lstrip s = rev t ++ rev r).
  { rewrite <- rev_app_distr, <- Hr. by rewrite rev_involutive. }
  split; [by rewrite <- Ht|].
  split; [done|]. split; [by apply Forall_rev|]. split.
  - destruct (rev t) as [|c u] eqn:Hu; [done|].
    rewrite Ht in Hlhd. simpl in Hlhd. exact Hlhd.
  - rewrite <- (rev_involutive t) in Hrhd.
    destruct (rev t) as [|c u] using rev_ind; [done|].
    rewrite last_snoc. rewrite rev_app_distr in Hrhd. exact Hrhd.
Qed.

(** Trimming and then discarding the empty tokens is what the list
    comprehension of the source computes. *)
Lemma authors_of_string_trim_discard (s : str) :
  authors_of_string s = filter (λ a, a ≠ []) (strip <$> split 44 s).
Proof.
  unfold authors_of_string. induction (split 44 s) as [|a l IH]; [done|].
  rewrite fmap_cons. destruct (decide (strip a = [])) as [E|E].
  - rewrite !filter_cons_False by (intros ?; done). exact IH.
  - rewrite !filter_cons_True by done. rewrite fmap_cons. by f_equal.
Qed.

Lemma Forall_filter_keep {A} (P Q : A → Prop) `{∀ x, Decision (Q x)} (l : list A) :
  Forall P l → Forall P (filter Q l).
Proof.
  induction 1 as [|x l Hx Hl IH]; [constructor|].
  rewrite filter_cons. destruct (decide (Q x)); [by constructor | exact IH].
Qed.

Lemma authors_of_string_Forall (P : N → Prop) (s : str) :
  Forall P s → Forall (Forall P) (authors_of_string s).
Proof.
  intros H. unfold authors_of_string. apply Forall_fmap.
  apply Forall_filter_keep.
  eapply Forall_impl; [apply split_Forall, H|].
  intros a Ha. by apply strip_Forall.
Qed.

(** ** Candidates, in page order *)

(** The profile link of a candidate is on the scholar host. *)
Lemma scholar_profile_raw (el : UserBlock) (c : fields) :
  scholar_profile el = Ok c →
  ∃ d : fields,
    c = remove_empty d
    ∧ (d !! "name_link" = None
       ∨ ∃ href, d !! "name_link" = Some (scholar_base ++ href)).
Proof.
  unfold scholar_profile. cbv zeta. intros Hc.
  destruct (gs_ai_cby el) as [cited|];
    [destruct (last_item (split_ws (get_text cited))); [|done]|];
    injection Hc as <-; eexists; (split; [reflexivity|]);
    rewrite ?lookup_insert_ne by done;
    (destruct (gs_ai_int el); rewrite ?lookup_insert_ne by done);
    (destruct (gs_ai_eml el); rewrite ?lookup_insert_ne by done);
    (destruct (gs_ai_aff el); rewrite ?lookup_insert_ne by done);
    (destruct (gs_ai_name el) as [name_el|];
     [destruct (find_a name_el) as [anchor|];
      [destruct (attrs anchor !! "href")|]|]);
    rewrite ?lookup_insert_eq, ?lookup_insert_ne, ?lookup_empty by done;
    eauto.
Qed.

Lemma scholar_profile_link (el : UserBlock) (c : fields) (u : str) :
  scholar_profile el = Ok c →
  c !! "name_link" = Some u →
  ∃ href, u = scholar_base ++ href.
Proof.
  intros (d & -> & Hd)%scholar_profile_raw Hu.
  apply remove_empty_lookup in Hu as [Hu _].
  destruct Hd as [Hd | [href Hd]]; [congruence|].
  exists href. congruence.
Qed.

(** The loop over the blocks appends the candidates of the blocks, in the
    order of the blocks. *)
Lemma scholar_profiles_in_order (els : list UserBlock) (acc l : list fields) :
  scholar_profiles acc els = Ok l →
  ∃ l', l = acc ++ l' ∧ Forall2 (λ el c, scholar_profile el = Ok c) els l'.
Proof.
  revert acc. induction els as [|el els IH]; intros acc; simpl.
  - intros [= <-]. exists []. split; [by rewrite app_nil_r | constructor].
  - destruct (scholar_profile el) as [c|e] eqn:E; [|done].
    intros (l' & -> & HF)%IH. exists (c :: l').
    split; [by rewrite <- app_assoc | by constructor].
Qed.

(** The loop raises exactly when the extraction of some block raises. *)
Lemma scholar_profiles_raises (els : list UserBlock) (acc : list fields) (e : exn) :
  scholar_profiles acc els = Raise e →
  Exists (λ el, scholar_profile el = Raise e) els.
Proof.
  revert acc. induction els as [|el els IH]; intros acc; simpl; [done|].
  destruct (scholar_profile el) as [c|e'] eqn:E.
  - intros H. right. by eapply IH.
  - intros [= ->]. by left.
Qed.

(** The URLs of the author loop are not on the search endpoint. *)
Lemma scholar_base_off_search (href : str) :
  starts_with search_base (scholar_base ++ href) = false.
Proof. reflexivity. Qed.

Lemma authors_base_off_search (q : str) :
  starts_with search_base (authors_base ++ q) = false.
Proof. reflexivity. Qed.

Lemma search_base_on_search (q : str) :
  starts_with search_base (search_base ++ q) = true.
Proof. reflexivity. Qed.

Lemma search_requests_app (t1 t2 : list event) :
  search_requests (t1 ++ t2) = search_requests t1 ++ search_requests t2.
Proof. unfold search_requests. by rewrite requests_app, filter_app. Qed.

Lemma search_requests_get_off (url : str) :
  starts_with search_base url = false → search_requests [Get url] = [].
Proof.
  intros H. unfold search_requests. change (requests [Get url]) with [url].
  rewrite filter_cons_False; [done|]. by rewrite H.
Qed.

Lemma search_requests_get_on (url : str) :
  starts_with search_base url = true → search_requests [Get url] = [url].
Proof.
  intros H. unfold search_requests. change (requests [Get url]) with [url].
  by rewrite filter_cons_True.
Qed.

Lemma search_requests_sleep (secs : N) : search_requests [Sleep secs] = [].
Proof. reflexivity. Qed.

Lemma search_requests_nil : search_requests [] = [].
Proof. reflexivity. Qed.

Section Orchestrator.

Context {W : Type} (http : str → W → res Page * W).

(** What the author resolver returns for a name that [quote] accepts: the
    candidates of the page it fetched, in the order of the page, or
    nothing when the fetch or the extraction of a block raised. *)
Lemma get_scholar_profiles_spec (author : str) (w : W) :
  encodable author = true →
  ∃ cands w1,
    get_scholar_profiles http author w
    = (Ok cands, w1, [Get (authors_base ++ quoted author)])
    ∧ (cands = []
       ∨ ∃ page, http (authors_base ++ quoted author) w = (Ok page, w1)
                 ∧ Forall2 (λ el c, scholar_profile el = Ok c)
                     (gsc_1usr page) cands).
Proof.
  intros Hq%quote_encodable.
  destruct (http (authors_base ++ quoted author) w) as [[page|e] w1] eqn:E.
  - rewrite (get_scholar_profiles_ok http _ _ _ _ _ Hq E).
    destruct (scholar_profiles [] (gsc_1usr page)) as [l|e] eqn:El.
    + exists l, w1. split; [done|]. right. exists page. split; [done|].
      by apply scholar_profiles_in_order in El as (l' & -> & HF).
    + exists [], w1. split; [done|]. by left.
  - rewrite (get_scholar_profiles_raise http _ _ _ _ _ Hq E).
    exists [], w1. split; [done|]. by left.
Qed.

Lemma get_scholar_profiles_off_search (author : str) (w : W) cands w1 tr :
  get_scholar_profiles http author w = (Ok cands, w1, tr) →
  Forall off_search cands.
Proof.
  destruct (encodable author) eqn:Henc.
  - destruct (get_scholar_profiles_spec author w Henc)
      as (cands' & w1' & -> & Hc).
    intros [= <- _ _]. destruct Hc as [-> | (page & _ & HF)]; [constructor|].
    clear -HF. induction HF as [|el c els cs Hc _ IH]; constructor; [|done].
    intros u Hu. destruct (scholar_profile_link el c u Hc Hu) as [href ->].
    apply scholar_base_off_search.
  - by rewrite (get_scholar_profiles_unquotable http _ _ _
                  (quote_not_encodable _ Henc)).
Qed.

Lemma detail_profiles_off_search (cands : list fields) (w : W) detailed w' tr :
  Forall off_search cands →
  detail_profiles http cands w = (Ok detailed, w', tr) →
  search_requests tr = [].
Proof.
  intros Hoff.
  destruct (detail_profiles_spec http cands w) as (? & ? & tr' & -> & _ & Hreq).
  intros [= _ _ <-]. unfold search_requests. rewrite Hreq. clear Hreq.
  induction Hoff as [|c cs Hc _ IH]; [done|].
  change (omap (λ c0 : fields, c0 !! "name_link") (c :: cs))
    with (match c !! "name_link" with
          | Some u => u :: omap (λ c0 : fields, c0 !! "name_link") cs
          | None => omap (λ c0 : fields, c0 !! "name_link") cs
          end).
  destruct (c !! "name_link") as [u|] eqn:Hu; [|exact IH].
  rewrite filter_cons_False; [exact IH|]. by rewrite (Hc u Hu).
Qed.

(** The author loop on names that [quote] accepts: one entry for each
    name, in order, and no request to the search endpoint. *)
Lemma detail_authors_spec (authors : list str) (w : W) :
  Forall (λ a, encodable a = true) authors →
  ∃ entries w' tr,
    detail_authors http authors w = (Ok entries, w', tr)
    ∧ author_name <$> entries = authors
    ∧ search_requests tr = [].
Proof.
  intros Hall. revert w.
  induction Hall as [|a rest Ha _ IH]; intros w.
  - exists [], w, []. done.
  - destruct (get_scholar_profiles_spec a w Ha) as (cands & w1 & Hc & _).
    pose proof (get_scholar_profiles_off_search _ _ _ _ _ Hc) as Hoff.
    destruct (detail_profiles_spec http cands w1) as (det & w2 & t2 & Hd & _ & _).
    pose proof (detail_profiles_off_search _ _ _ _ _ Hoff Hd) as Ht2.
    destruct (IH w2) as (more & w3 & t3 & Hm & Hnames & Ht3).
    eexists (_ :: more), w3, _. split; [|split].
    + simpl. rewrite (bind_ok _ _ _ _ _ _ Hc), (bind_ok _ _ _ _ _ _ Hd).
      unfold bind at 1. unfold sleep at 1.
      rewrite (bind_ok _ _ _ _ _ _ Hm). unfold ret. reflexivity.
    + rewrite fmap_cons, Hnames. reflexivity.
    + rewrite !search_requests_app, Ht2, Ht3, search_requests_sleep.
      by rewrite search_requests_get_off by apply authors_base_off_search.
Qed.

Lemma paper_ok_query (p : paper) :
  paper_ok p = true → encodable (query_of p) = true.
Proof.
  unfold paper_ok. intros [Ht _]%andb_true_iff.
  unfold query_of. apply encodable_Forall.
  apply encodable_Forall in Ht.
  apply Forall_app. split; [by repeat constructor|].
  apply Forall_app. split; [done | by repeat constructor].
Qed.

Lemma paper_ok_authors (p : paper) :
  paper_ok p = true →
  ∃ s, paper_get p "authors" = FStr s
       ∧ authors_list p = Ok (authors_of_string s)
       ∧ Forall (λ a, encodable a = true) (authors_of_string s).
Proof.
  unfold paper_ok, authors_list. intros [_ Ha]%andb_true_iff.
  destruct (paper_get p "authors") as [|s]; [done|].
  exists s. split; [done|]. split; [done|].
  apply encodable_Forall in Ha.
  eapply Forall_impl; [apply authors_of_string_Forall, Ha|].
  intros a. apply encodable_Forall.
Qed.

(** The body of the paper loop on a well-formed paper record. *)
Lemma process_paper_spec (p : paper) (w : W) :
  paper_ok p = true →
  ∃ entry w' tr,
    process_paper http p w = (Ok entry, w', tr)
    ∧ entry_for http p entry
    ∧ search_requests tr = [search_url p].
Proof.
  intros Hok.
  pose proof (quote_encodable _ (paper_ok_query p Hok)) as Hq.
  destruct (get_scholar_data_total http _ _ w Hq) as (results & w1 & Hs).
  destruct (paper_ok_authors p Hok) as (s & _ & Hl & Henc).
  destruct (detail_authors_spec _ w1 Henc) as (entries & w2 & t2 & Hd & Hn & Ht).
  eexists _, w2, _. split; [|split].
  - unfold process_paper. rewrite (bind_ok _ _ _ _ _ _ Hs).
    unfold bind at 1. unfold lift at 1. rewrite Hl.
    rewrite (bind_ok _ _ _ _ _ _ Hd). unfold ret. reflexivity.
  - split; [reflexivity|]. split.
    + cbn [authors_details]. by rewrite Hn, Hl.
    + exists w, w1. exact Hs.
  - rewrite !search_requests_app, Ht.
    rewrite search_requests_get_on by apply search_base_on_search.
    unfold search_url. by rewrite app_nil_r.
Qed.

Lemma entries_for_arxiv (papers : list paper) (out : list PaperEntry) :
  Forall2 (entry_for http) papers out → arxiv <$> out = papers.
Proof.
  induction 1 as [|p e ps es (Ha & _) _ IH]; [done|].
  by rewrite fmap_cons, Ha, IH.
Qed.

(** The paper loop on well-formed paper records. *)
Lemma main_spec (papers : list paper) (w : W) :
  Forall (λ p, paper_ok p = true) papers →
  ∃ out w' tr,
    main http papers w = (Ok out, w', tr)
    ∧ Forall2 (entry_for http) papers out
    ∧ search_requests tr = search_url <$> papers.
Proof.
  intros Hall. revert w. induction Hall as [|p rest Hp _ IH]; intros w.
  - exists [], w, []. repeat split. constructor.
  - destruct (process_paper_spec p w Hp) as (e & w1 & t1 & He & Hfor & Ht1).
    destruct (IH w1) as (more & w2 & t2 & Hm & Hfors & Ht2).
    eexists (e :: more), w2, _. split; [|split].
    + simpl. rewrite (bind_ok _ _ _ _ _ _ He).
      unfold bind at 1. unfold sleep at 1.
      rewrite (bind_ok _ _ _ _ _ _ Hm). unfold ret. reflexivity.
    + by constructor.
    + rewrite !search_requests_app, Ht1, Ht2, search_requests_sleep.
      by rewrite app_nil_r.
Qed.

End Orchestrator.

(** ** One pass over the papers *)

(** C3, as stated, fails: the loop of [main] has no [try], and the
    resolvers build their URL before their [try]. A paper record whose
    author list is [None] raises [AttributeError] at [split], after its
    search request; a paper record whose title holds a lone surrogate
    raises [UnicodeEncodeError] in [quote], before any request. In both
    runs the exception leaves [main]: there is no output record, neither
    for this paper nor for the next one. *)
Lemma uncaught_exception_aborts_the_run :
  main (Sample.serve (Sample.page_of [] []))
    [Sample.paper_no_authors; Sample.paper_y] tt
  = (Raise AttributeError, tt,
     [Get (lit "https://www.google.com/scholar?q=%22X%22")])
  ∧ main (Sample.serve (Sample.page_of [] []))
      [Sample.paper_surrogate; Sample.paper_y] tt
    = (Raise UnicodeEncodeError, tt, []).
Proof. split; vm_compute; reflexivity. Qed.

(** C3, amended. Whatever the fetches answer, and whichever of them raise,
    a run over paper records whose title is absent, [None] or a string
    without lone surrogate and whose author list is absent or such a string
    completes: it returns exactly one output record for each paper, in the
    order of the input, each carrying its paper, and it issues exactly one
    search request for each paper, in that order (no request is repeated).
    An exception of a fetch never leaves the resolver that issued it. *)
Theorem main_completes_one_pass {W : Type} (http : str → W → res Page * W)
    (papers : list paper) (w : W) :
  Forall (λ p, paper_ok p = true) papers →
  ∃ out w' tr,
    main http papers w = (Ok out, w', tr)
    ∧ length out = length papers
    ∧ arxiv <$> out = papers
    ∧ search_requests tr = search_url <$> papers.
Proof.
  intros Hall.
  destruct (main_spec http papers w Hall) as (out & w' & tr & Hm & Hfor & Htr).
  exists out, w', tr. split; [done|]. split; [|split; [|done]].
  - symmetry. by eapply Forall2_length.
  - by eapply entries_for_arxiv.
Qed.

Lemma main_completes_one_pass_witness :
  ∃ out w' tr,
    main Sample.down [Sample.paper_x; Sample.paper_y] tt = (Ok out, w', tr)
    ∧ length out = 2%nat
    ∧ arxiv <$> out = [Sample.paper_x; Sample.paper_y]
    ∧ search_requests tr
      = [lit "https://www.google.com/scholar?q=%22X%22";
         lit "https://www.google.com/scholar?q=%22Y%22"].
Proof.
  apply (main_completes_one_pass Sample.down [Sample.paper_x; Sample.paper_y] tt).
  repeat constructor.
Defined.

(** ** A fetch that raises *)



(** ** Author entries *)



(** ** Order *)



(** ** Determinism *)

Section Determinism.

Context {W1 W2 : Type} (R : W1 → W2 → Prop).

Lemma same_run_ret {A} (a : A) : same_run R (ret a) (ret a).
Proof. intros w1 w2 HR. by repeat split. Qed.

Lemma same_run_lift {A} (r : res A) : same_run R (lift r) (lift r).
Proof. intros w1 w2 HR. by repeat split. Qed.

Lemma same_run_sleep (secs : N) : same_run R (sleep secs) (sleep secs).
Proof. intros w1 w2 HR. by repeat split. Qed.

Lemma same_run_bind {A B} (m1 : M W1 A) (m2 : M W2 A)
    (k1 : A → M W1 B) (k2 : A → M W2 B) :
  same_run R m1 m2 →
  (∀ a, same_run R (k1 a) (k2 a)) →
  same_run R (bind m1 k1) (bind m2 k2).
Proof.
  intros Hm Hk w1 w2 HR. unfold bind.
  destruct (Hm w1 w2 HR) as (Hr & Ht & HR').
  destruct (m1 w1) as [[r1 v1] t1], (m2 w2) as [[r2 v2] t2].
  simpl in Hr, Ht, HR'. subst r2 t2.
  destruct r1 as [a|e]; [|by repeat split].
  destruct (Hk a v1 v2 HR') as (Hr & Ht & HR'').
  destruct (k1 a v1) as [[r1 u1] s1], (k2 a v2) as [[r2 u2] s2].
  simpl in *. subst. by repeat split.
Qed.

Lemma same_run_try_except {A} (m1 : M W1 A) (m2 : M W2 A)
    (h1 : exn → M W1 A) (h2 : exn → M W2 A) :
  same_run R m1 m2 →
  (∀ e, same_run R (h1 e) (h2 e)) →
  same_run R (try_except m1 h1) (try_except m2 h2).
Proof.
  intros Hm Hh w1 w2 HR. unfold try_except.
  destruct (Hm w1 w2 HR) as (Hr & Ht & HR').
  destruct (m1 w1) as [[r1 v1] t1], (m2 w2) as [[r2 v2] t2].
  simpl in Hr, Ht, HR'. subst r2 t2.
  destruct r1 as [a|e]; [by repeat split|].
  destruct (Hh e v1 v2 HR') as (Hr & Ht & HR'').
  destruct (h1 e v1) as [[r1 u1] s1], (h2 e v2) as [[r2 u2] s2].
  simpl in *. subst. by repeat split.
Qed.

Context (http1 : str → W1 → res Page * W1) (http2 : str → W2 → res Page * W2).
Hypothesis Hsame : same_answers R http1 http2.

Lemma same_run_requests_get (url : str) :
  same_run R (requests_get http1 url) (requests_get http2 url).
Proof.
  intros w1 w2 HR. unfold requests_get.
  destruct (Hsame url w1 w2 HR) as [Hr HR'].
  destruct (http1 url w1) as [r1 v1], (http2 url w2) as [r2 v2].
  simpl in *. subst. by repeat split.
Qed.

Lemma same_run_get_scholar_data (query : str) :
  same_run R (get_scholar_data http1 query) (get_scholar_data http2 query).
Proof.
  unfold get_scholar_data.
  apply same_run_bind; [apply same_run_lift|]. intros q.
  apply same_run_try_except; [|intros _; apply same_run_ret].
  apply same_run_bind; [apply same_run_requests_get|].
  intros soup. apply same_run_ret.
Qed.

Lemma same_run_get_scholar_profiles (author : str) :
  same_run R (get_scholar_profiles http1 author)
    (get_scholar_profiles http2 author).
Proof.
  unfold get_scholar_profiles.
  apply same_run_bind; [apply same_run_lift|]. intros q.
  apply same_run_try_except; [|intros _; apply same_run_ret].
  apply same_run_bind; [apply same_run_requests_get|].
  intros soup. apply same_run_lift.
Qed.

Lemma same_run_get_author_profile_data (url : str) :
  same_run R (get_author_profile_data http1 url)
    (get_author_profile_data http2 url).
Proof.
  unfold get_author_profile_data.
  apply same_run_try_except; [|intros _; apply same_run_ret].
  apply same_run_bind; [apply same_run_requests_get|].
  intros soup. apply same_run_ret.
Qed.

Lemma same_run_detail_profiles (cands : list fields) :
  same_run R (detail_profiles http1 cands) (detail_profiles http2 cands).
Proof.
  induction cands as [|c rest IH]; simpl; [apply same_run_ret|].
  destruct (c !! "name_link") as [url|]; [|exact IH].
  apply same_run_bind; [apply same_run_get_author_profile_data|]. intros d.
  apply same_run_bind; [apply same_run_sleep|]. intros _.
  apply same_run_bind; [exact IH|]. intros more. apply same_run_ret.
Qed.

Lemma same_run_detail_authors (authors : list str) :
  same_run R (detail_authors http1 authors) (detail_authors http2 authors).
Proof.
  induction authors as [|a rest IH]; simpl; [apply same_run_ret|].
  apply same_run_bind; [apply same_run_get_scholar_profiles|]. intros cands.
  apply same_run_bind; [apply same_run_detail_profiles|]. intros det.
  apply same_run_bind; [apply same_run_sleep|]. intros _.
  apply same_run_bind; [exact IH|]. intros more. apply same_run_ret.
Qed.

Lemma same_run_process_paper (p : paper) :
  same_run R (process_paper http1 p) (process_paper http2 p).
Proof.
  unfold process_paper.
  apply same_run_bind; [apply same_run_get_scholar_data|]. intros results.
  apply same_run_bind; [apply same_run_lift|]. intros authors.
  apply same_run_bind; [apply same_run_detail_authors|]. intros details.
  apply same_run_ret.
Qed.

Lemma same_run_main (papers : list paper) :
  same_run R (main http1 papers) (main http2 papers).
Proof.
  induction papers as [|p rest IH]; simpl; [apply same_run_ret|].
  apply same_run_bind; [apply same_run_process_paper|]. intros entry.
  apply same_run_bind; [apply same_run_sleep|]. intros _.
  apply same_run_bind; [exact IH|]. intros more. apply same_run_ret.
Qed.

End Determinism.

(** C9. The output of the orchestrator is a function of the paper list and
    of the answers to its requests: two runs over the same paper list, on
    two networks that give the same answers to the same requests, return
    the same result (the same output sequence, or the same exception) after
    the same sequence of requests and pauses. *)
Theorem main_is_deterministic {W1 W2 : Type} (R : W1 → W2 → Prop)
    (http1 : str → W1 → res Page * W1) (http2 : str → W2 → res Page * W2)
    (papers : list paper) (w1 : W1) (w2 : W2) :
  same_answers R http1 http2 →
  R w1 w2 →
  (main http1 papers w1).1.1 = (main http2 papers w2).1.1
  ∧ (main http1 papers w1).2 = (main http2 papers w2).2.
Proof.
  intros Hsame HR.
  destruct (same_run_main R http1 http2 Hsame papers w1 w2 HR) as (Hr & Ht & _).
  by split.
Qed.

Lemma main_is_deterministic_witness :
  (main (Sample.serve Sample.full_profile)
     [Sample.paper_x; Sample.paper_y] tt).1.1
  = (main (Sample.counting Sample.full_profile)
       [Sample.paper_x; Sample.paper_y] 0).1.1
  ∧ (main (Sample.serve Sample.full_profile)
       [Sample.paper_x; Sample.paper_y] tt).2
    = (main (Sample.counting Sample.full_profile)
         [Sample.paper_x; Sample.paper_y] 0).2.
Proof.
  apply (main_is_deterministic (λ _ _, True)).
  - intros url w1 w2 _. split; [reflexivity | exact I].
  - exact I.
Defined.

(** * Further properties *)

(** ** Search results *)

Lemma remove_empty_lookup_eq (d : fields) (k : string) :
  remove_empty d !! k
  = match d !! k with
    | Some [] => None
    | other => other
    end.
Proof.
  destruct (d !! k) as [v|] eqn:E.
  - destruct v as [|c v].
    + destruct (remove_empty d !! k) as [v'|] eqn:E'; [|done].
      apply remove_empty_lookup in E' as [E1 E2]. congruence.
    + apply remove_empty_lookup. by rewrite E.
  - by apply remove_empty_lookup_None.
Qed.

Lemma scholar_base_app_ne (s : str) : scholar_base ++ s ≠ [].
Proof. done. Qed.

(** Every block of the page gives one search result: the loop never skips
    a block. *)
Lemma scholar_results_from_in_order (els : list SearchBlock) (acc : list fields) :
  ∃ rs,
    fold_left
      (λ results el,
         match scholar_result el with
         | Ok result => results ++ [result]
         | Raise _ => results
         end) els acc = acc ++ rs
    ∧ Forall2 (λ el r, scholar_result el = Ok r) els rs.
Proof.
  revert acc. induction els as [|el els IH]; intros acc; cbn [fold_left].
  - exists []. split; [by rewrite app_nil_r | constructor].
  - destruct (scholar_result_total el) as [r Hr]. rewrite Hr.
    destruct (IH (acc ++ [r])) as (rs & -> & HF).
    exists (r :: rs). split; [by rewrite <- app_assoc | by constructor].
Qed.

(** X1. When the fetch of the search page returns, the search resolver
    returns exactly one result for each [.gs_r] block of the page, in the
    order of the page: no block is ever skipped, because the extraction of
    a block cannot raise. *)
Theorem search_results_one_per_block {W : Type}
    (http : str → W → res Page * W) (query q : str) (w w1 : W) (page : Page) :
  quote query = Ok q →
  http (search_base ++ q) w = (Ok page, w1) →
  ∃ results,
    get_scholar_data http query w
    = (Ok results, w1, [Get (search_base ++ q)])
    ∧ length results = length (gs_r page)
    ∧ Forall2 (λ el r, scholar_result el = Ok r) (gs_r page) results.
Proof.
  intros Hq Hpage.
  destruct (scholar_results_from_in_order (gs_r page) []) as (rs & Hrs & HF).
  exists rs. split; [|split; [symmetry; by eapply Forall2_length | done]].
  rewrite (get_scholar_data_ok http _ _ _ _ _ Hq Hpage).
  unfold scholar_results. by rewrite Hrs.
Qed.

Lemma search_results_one_per_block_witness :
  ∃ results,
    get_scholar_data
      (Sample.serve (Sample.page_of [Sample.block; Sample.block] []))
      (lit "X") tt
    = (Ok results, tt, [Get (search_base ++ lit "X")])
    ∧ length results = 2%nat
    ∧ Forall2 (λ el r, scholar_result el = Ok r)
        [Sample.block; Sample.block] results.
Proof.
  apply (search_results_one_per_block
           (Sample.serve (Sample.page_of [Sample.block; Sample.block] []))
           (lit "X") (lit "X") tt tt
           (Sample.page_of [Sample.block; Sample.block] []));
    reflexivity.
Defined.

(** X2. The two composed links of a search result are there whenever their
    anchor is: [cited_link] when the block has a [.gs_nph+ a] anchor,
    [versions_link] when the first [a ~ a] element has a following sibling
    anchor. Each is the scholar host followed by the [href] of the anchor,
    and the bare host when the anchor has no [href]. The title link is the
    [href] of the first anchor of the title, when it is not empty. *)
Theorem search_result_links (el : SearchBlock) :
  ∃ r,
    scholar_result el = Ok r
    ∧ r !! "cited_link" = host_link <$> gs_nph_a el
    ∧ r !! "versions_link" = host_link <$> versions_anchor el
    ∧ r !! "title_link" = kept (heading_href (gs_rt el)).
Proof.
  unfold scholar_result. cbv zeta. eexists. split; [reflexivity|].
  rewrite !remove_empty_lookup_eq.
  unfold tag_get, versions_anchor, heading_href, host_link, kept.
  split; [|split].
  - destruct (a_sib_a el) as [|first ?];
      [|destruct (find_next_sibling_a first)];
      rewrite ?lookup_insert_ne by done;
      (destruct (gs_nph_a el) as [cited_a|];
       [ rewrite lookup_insert_eq; cbn [fmap option_fmap option_map];
         by destruct (scholar_base ++ default [] (attrs cited_a !! "href")) eqn:E
       | ]);
      destruct (gs_rs el); rewrite ?lookup_insert_ne by done;
      destruct (gs_a el); rewrite ?lookup_insert_ne by done;
      (destruct (gs_rt el) as [title_el|];
       [destruct (find_a title_el) as [anchor|];
        [destruct (attrs anchor !! "href")|]|]);
      by rewrite ?lookup_insert_ne, ?lookup_empty by done.
  - destruct (a_sib_a el) as [|first ?];
      [|destruct (find_next_sibling_a first) as [ver_el|];
        [ rewrite lookup_insert_eq; cbn [fmap option_fmap option_map];
          by destruct (scholar_base ++ default [] (attrs ver_el !! "href")) eqn:E
        | ]];
      destruct (gs_nph_a el); rewrite ?lookup_insert_ne by done;
      destruct (gs_rs el); rewrite ?lookup_insert_ne by done;
      destruct (gs_a el); rewrite ?lookup_insert_ne by done;
      (destruct (gs_rt el) as [title_el|];
       [destruct (find_a title_el) as [anchor|];
        [destruct (attrs anchor !! "href")|]|]);
      by rewrite ?lookup_insert_ne, ?lookup_empty by done.
  - destruct (a_sib_a el) as [|first ?];
      [|destruct (find_next_sibling_a first)];
      rewrite ?lookup_insert_ne by done;
      destruct (gs_nph_a el); rewrite ?lookup_insert_ne by done;
      destruct (gs_rs el); rewrite ?lookup_insert_ne by done;
      destruct (gs_a el); rewrite ?lookup_insert_ne by done;
      (destruct (gs_rt el) as [title_el|];
       [destruct (find_a title_el) as [anchor|];
        [destruct (attrs anchor !! "href") as [href|]|]|]);
      rewrite ?lookup_insert_ne by done;
      rewrite ?lookup_insert_eq, ?lookup_insert_ne, ?lookup_empty by done;
      first [done | by destruct href].
Qed.

(** ** Candidates *)

(** The tokens of [s.split()] are not empty and hold no whitespace. *)
Lemma split_ws_from_tokens (cur s : str) :
  Forall (λ c, isspace c = false) cur →
  Forall (λ tok, tok ≠ [] ∧ Forall (λ c, isspace c = false) tok)
    (split_ws_from cur s).
Proof.
  revert cur. induction s as [|c s IH]; intros cur Hcur;
    cbn [split_ws_from].
  - destruct cur as [|d cur]; cbn [truthy]; [constructor|].
    repeat constructor.
    + intros H. apply (f_equal (@rev N)) in H.
      by rewrite rev_involutive in H.
    + by apply Forall_rev.
  - destruct (isspace c) eqn:Hc.
    + destruct cur as [|d cur]; cbn [truthy]; [by apply IH|].
      constructor; [|by apply IH]. split.
      * intros H. apply (f_equal (@rev N)) in H.
        by rewrite rev_involutive in H.
      * by apply Forall_rev.
    + apply IH. by constructor.
Qed.

Lemma split_ws_tokens_clean (s : str) :
  Forall (λ tok, tok ≠ [] ∧ Forall (λ c, isspace c = false) tok) (split_ws s).
Proof. apply split_ws_from_tokens. constructor. Qed.

Lemma last_Forall {A} (P : A → Prop) (l : list A) (x : A) :
  Forall P l → last l = Some x → P x.
Proof.
  intros Hl Hx. rewrite Forall_forall in Hl. apply Hl.
  destruct l as [|y l] using rev_ind; [done|].
  rewrite last_snoc in Hx. injection Hx as ->. set_solver.
Qed.

(** The two fields of a candidate that the orchestrator and the merge
    depend on, through the filter of empty fields. *)
Lemma scholar_profile_fields (el : UserBlock) (c : fields) :
  scholar_profile el = Ok c →
  c !! "name_link" = (λ href, scholar_base ++ href) <$> heading_href (gs_ai_name el)
  ∧ c !! "cited_by_count" = citation_token el.
Proof.
  unfold scholar_profile, citation_token, heading_href. cbv zeta. intros Hc.
  destruct (gs_ai_cby el) as [cited|].
  - unfold last_item in Hc.
    destruct (last (split_ws (get_text cited))) as [tok|] eqn:Htok; [|done].
    injection Hc as <-. rewrite !remove_empty_lookup_eq.
    assert (Hne : tok ≠ []).
    { by destruct (last_Forall _ _ _ (split_ws_tokens_clean _) Htok). }
    split.
    + rewrite lookup_insert_ne by done.
      destruct (gs_ai_int el); rewrite ?lookup_insert_ne by done;
      destruct (gs_ai_eml el); rewrite ?lookup_insert_ne by done;
      destruct (gs_ai_aff el); rewrite ?lookup_insert_ne by done;
      (destruct (gs_ai_name el) as [name_el|];
       [destruct (find_a name_el) as [anchor|];
        [destruct (attrs anchor !! "href") as [href|]|]|]);
      rewrite ?lookup_insert_eq, ?lookup_insert_ne, ?lookup_empty by done;
      done.
    + rewrite lookup_insert_eq. by destruct tok.
  - injection Hc as <-. rewrite !remove_empty_lookup_eq. split.
    + destruct (gs_ai_int el); rewrite ?lookup_insert_ne by done;
      destruct (gs_ai_eml el); rewrite ?lookup_insert_ne by done;
      destruct (gs_ai_aff el); rewrite ?lookup_insert_ne by done;
      (destruct (gs_ai_name el) as [name_el|];
       [destruct (find_a name_el) as [anchor|];
        [destruct (attrs anchor !! "href") as [href|]|]|]);
      rewrite ?lookup_insert_eq, ?lookup_insert_ne, ?lookup_empty by done;
      done.
    + destruct (gs_ai_int el); rewrite ?lookup_insert_ne by done;
      destruct (gs_ai_eml el); rewrite ?lookup_insert_ne by done;
      destruct (gs_ai_aff el); rewrite ?lookup_insert_ne by done;
      (destruct (gs_ai_name el) as [name_el|];
       [destruct (find_a name_el) as [anchor|];
        [destruct (attrs anchor !! "href") as [href|]|]|]);
      rewrite ?lookup_insert_eq, ?lookup_insert_ne, ?lookup_empty by done;
      done.
Qed.

(** X3. The citation count of a candidate is the last whitespace-separated
    token of the text of its citation element: the candidate has the field
    exactly when the block has such an element, and the value is never
    empty and holds no whitespace. *)
Theorem candidate_citation_count (el : UserBlock) (c : fields) :
  scholar_profile el = Ok c →
  c !! "cited_by_count" = citation_token el
  ∧ ∀ count, c !! "cited_by_count" = Some count →
             count ≠ [] ∧ Forall (λ ch, isspace ch = false) count.
Proof.
  intros Hc. destruct (scholar_profile_fields el c Hc) as [_ Hcount].
  split; [done|]. intros count. rewrite Hcount. unfold citation_token.
  destruct (gs_ai_cby el) as [cited|]; [|done].
  intros H. exact (last_Forall _ _ _ (split_ws_tokens_clean _) H).
Qed.

Lemma candidate_citation_count_witness :
  ({[ "name" := lit "A. Smith";
      "name_link" := lit "https://scholar.google.com/citations?user=u1";
      "position" := lit "MIT";
      "cited_by_count" := lit "12" ]} : fields) !! "cited_by_count"
  = citation_token Sample.user_linked
  ∧ ∀ count,
      ({[ "name" := lit "A. Smith";
          "name_link" := lit "https://scholar.google.com/citations?user=u1";
          "position" := lit "MIT";
          "cited_by_count" := lit "12" ]} : fields) !! "cited_by_count"
      = Some count →
      count ≠ [] ∧ Forall (λ ch, isspace ch = false) count.
Proof.
  apply (candidate_citation_count Sample.user_linked).
  vm_compute. reflexivity.
Defined.

(** X4. A candidate has a profile link exactly when its name element holds
    an anchor with an [href] attribute, and the link is the scholar host
    followed by that [href]: an empty [href] still gives a link, the bare
    host. *)
Theorem candidate_link (el : UserBlock) (c : fields) :
  scholar_profile el = Ok c →
  c !! "name_link"
  = (λ href, scholar_base ++ href) <$> heading_href (gs_ai_name el).
Proof. intros Hc. by destruct (scholar_profile_fields el c Hc). Qed.

Lemma candidate_link_witness :
  ({[ "name" := lit "B. Lee" ]} : fields) !! "name_link"
  = (λ href, scholar_base ++ href)
      <$> heading_href (gs_ai_name Sample.user_unlinked).
Proof.
  apply (candidate_link Sample.user_unlinked). vm_compute. reflexivity.
Defined.

(** X5. After a fetch that returns, the author resolver gives all the
    candidates of the page or none: it returns one candidate for each block
    when every citation element of the page has a token, and the empty list
    as soon as one block has a citation element without token. *)
Theorem author_resolver_all_or_nothing {W : Type}
    (http : str → W → res Page * W) (author q : str) (w w1 : W) (page : Page) :
  quote author = Ok q →
  http (authors_base ++ q) w = (Ok page, w1) →
  (Exists no_citation_token (gsc_1usr page) →
   get_scholar_profiles http author w = (Ok [], w1, [Get (authors_base ++ q)]))
  ∧ (Forall (λ el, ¬ no_citation_token el) (gsc_1usr page) →
     ∃ cands,
       get_scholar_profiles http author w
       = (Ok cands, w1, [Get (authors_base ++ q)])
       ∧ length cands = length (gsc_1usr page)).
Proof.
  intros Hq Hpage. rewrite (get_scholar_profiles_ok http _ _ _ _ _ Hq Hpage).
  destruct (scholar_profiles [] (gsc_1usr page)) as [l|e] eqn:El.
  - apply scholar_profiles_in_order in El as (l' & -> & HF). split.
    + intros Hbad. exfalso.
      apply Exists_exists in Hbad as (el & Hel & Hbad).
      apply list_elem_of_lookup in Hel as [i Hi].
      destruct (Forall2_lookup_l _ _ _ _ _ HF Hi) as (c & _ & Hc).
      assert (scholar_profile el = Raise Py.IndexError) as Hr
        by by apply scholar_profile_raises_iff.
      congruence.
    + intros _. exists l'. split; [done|]. symmetry. by eapply Forall2_length.
  - split; [done|]. intros Hgood. exfalso.
    apply scholar_profiles_raises, Exists_exists in El as (el & Hel & Hr).
    apply scholar_profile_raises_iff in Hr as [_ Hbad].
    rewrite Forall_forall in Hgood. by apply (Hgood el).
Qed.

Lemma author_resolver_all_or_nothing_witness :
  (Exists no_citation_token [Sample.user_linked; Sample.user_uncited] →
   get_scholar_profiles
     (Sample.serve (Sample.page_of [] [Sample.user_linked; Sample.user_uncited]))
     (lit "B. Lee") tt
   = (Ok [], tt, [Get (authors_base ++ lit "B.%20Lee")]))
  ∧ (Forall (λ el, ¬ no_citation_token el)
       [Sample.user_linked; Sample.user_uncited] →
     ∃ cands,
       get_scholar_profiles
         (Sample.serve
            (Sample.page_of [] [Sample.user_linked; Sample.user_uncited]))
         (lit "B. Lee") tt
       = (Ok cands, tt, [Get (authors_base ++ lit "B.%20Lee")])
       ∧ length cands = 2%nat).
Proof.
  apply (author_resolver_all_or_nothing
           (Sample.serve
              (Sample.page_of [] [Sample.user_linked; Sample.user_uncited]))
           (lit "B. Lee") (lit "B.%20Lee") tt tt
           (Sample.page_of [] [Sample.user_linked; Sample.user_uncited]));
    reflexivity.
Defined.

(** ** Merged records *)

Lemma profile_data_of_identity (soup : Page) :
  profile_data_of soup !! "name" = (λ t, VStr (get_text t)) <$> gsc_prf_in soup
  ∧ profile_data_of soup !! "position"
    = (λ t, VStr (get_text t)) <$> gsc_prf_il soup
  ∧ profile_data_of soup !! "email"
    = (λ t, VStr (get_text t)) <$> gsc_prf_ivh soup
  ∧ profile_data_of soup !! "departments"
    = (λ t, VStr (get_text t)) <$> gsc_prf_int soup
  ∧ profile_data_of soup !! "cited_by_count" = None.
Proof.
  unfold profile_data_of.
  destruct (gsc_prf_in soup), (gsc_prf_il soup), (gsc_prf_ivh soup),
    (gsc_prf_int soup); by simplify_map_eq.
Qed.

(** X6. A linked candidate whose profile fetch raises stays in the
    author's profile list, at its place, with exactly its own fields: the
    failed fetch costs the request and the pause, and the loop goes on with
    the next candidate. *)
Theorem failed_profile_fetch_keeps_candidate {W : Type}
    (http : str → W → res Page * W) (c : fields) (rest : list fields)
    (url : str) (w w1 : W) (e : exn) :
  c !! "name_link" = Some url →
  http url w = (Raise e, w1) →
  ∃ more w2 tr,
    detail_profiles http rest w1 = (Ok more, w2, tr)
    ∧ detail_profiles http (c :: rest) w
      = (Ok ((VStr <$> c) :: more), w2, Get url :: Sleep 1 :: tr).
Proof.
  intros Hl He.
  destruct (detail_profiles_spec http rest w1) as (more & w2 & tr & Hrest & _).
  exists more, w2, tr. split; [done|].
  rewrite <- combine_empty.
  eapply detail_profiles_cons_linked; [done| |done].
  by eapply get_author_profile_data_raise.
Qed.

Lemma failed_profile_fetch_keeps_candidate_witness :
  ∃ more w2 tr,
    detail_profiles Sample.down [] tt = (Ok more, w2, tr)
    ∧ detail_profiles Sample.down
        [ {[ "name" := lit "A. Smith"; "name_link" := lit "u" ]} ] tt
      = (Ok ((VStr <$> ({[ "name" := lit "A. Smith";
                           "name_link" := lit "u" ]} : fields)) :: more),
         w2, Get (lit "u") :: Sleep 1 :: tr).
Proof.
  apply (failed_profile_fetch_keeps_candidate Sample.down
           {[ "name" := lit "A. Smith"; "name_link" := lit "u" ]} []
           (lit "u") tt tt RequestException);
    reflexivity.
Defined.

(** X7. The record merged from a linked candidate and the page of its
    profile: the four identity fields are the texts of the page's elements
    wherever the page has the element, also when that text is empty, and
    the candidate's value only where the page has no such element; the
    link and the citation count are always the candidate's; the articles
    are the page's. *)
Theorem merged_record_fields {W : Type}
    (http : str → W → res Page * W) (c : fields) (rest : list fields)
    (url : str) (w w1 : W) (page : Page) :
  c !! "name_link" = Some url →
  http url w = (Ok page, w1) →
  ∃ m more w2 tr,
    detail_profiles http (c :: rest) w
    = (Ok (m :: more), w2, Get url :: Sleep 1 :: tr)
    ∧ m !! "name" = identity_value (gsc_prf_in page) (c !! "name")
    ∧ m !! "position" = identity_value (gsc_prf_il page) (c !! "position")
    ∧ m !! "email" = identity_value (gsc_prf_ivh page) (c !! "email")
    ∧ m !! "departments"
      = identity_value (gsc_prf_int page) (c !! "departments")
    ∧ m !! "name_link" = Some (VStr url)
    ∧ m !! "cited_by_count" = VStr <$> c !! "cited_by_count"
    ∧ m !! "articles" = Some (VArticles (profile_article <$> gsc_a_t page)).
Proof.
  intros Hl Hpage.
  destruct (detail_profiles_spec http rest w1) as (more & w2 & tr & Hrest & _).
  exists (combine c (profile_data_of page)), more, w2, tr.
  split.
  { eapply detail_profiles_cons_linked; [done| |done].
    by apply get_author_profile_data_ok. }
  destruct (combine_merge_law c (profile_data_of page)) as [Hk _].
  destruct (profile_data_of_identity page) as (Hn & Hp & He & Hd & Hc).
  rewrite !Hk, Hn, Hp, He, Hd, Hc, profile_data_of_no_link,
    profile_data_of_articles, Hl.
  unfold identity_value.
  by destruct (gsc_prf_in page), (gsc_prf_il page), (gsc_prf_ivh page),
    (gsc_prf_int page).
Qed.

Lemma merged_record_fields_witness :
  ∃ m more w2 tr,
    detail_profiles (Sample.serve Sample.bare_profile)
      [ {[ "name" := lit "A. Smith"; "name_link" := lit "u" ]} ] tt
    = (Ok (m :: more), w2, Get (lit "u") :: Sleep 1 :: tr)
    ∧ m !! "name" = Some (VStr [])
    ∧ m !! "position" = None
    ∧ m !! "email" = None
    ∧ m !! "departments" = None
    ∧ m !! "name_link" = Some (VStr (lit "u"))
    ∧ m !! "cited_by_count" = None
    ∧ m !! "articles" = Some (VArticles []).
Proof.
  destruct (merged_record_fields (Sample.serve Sample.bare_profile)
              {[ "name" := lit "A. Smith"; "name_link" := lit "u" ]} []
              (lit "u") tt tt Sample.bare_profile)
    as (m & more & w2 & tr & Hrun & Hn & Hp & He & Hd & Hl & Hc & Ha);
    [reflexivity | reflexivity |].
  exists m, more, w2, tr.
  rewrite Hn, Hp, He, Hd, Hl, Hc, Ha.
  split; [exact Hrun|]. repeat split; vm_compute; reflexivity.
Defined.

(** ** Runs of the orchestrator *)

(** X8. A run over a concatenation of two paper lists is the run over the
    first list followed by the run over the second one from the world that
    the first run left: the outputs and the traces are concatenated, and
    when the first run raises, nothing of the second list is processed. *)
Theorem main_app {W : Type} (http : str → W → res Page * W)
    (papers1 papers2 : list paper) (w : W) :
  main http (papers1 ++ papers2) w
  = (let* out1 := main http papers1 in
     let* out2 := main http papers2 in
     ret (out1 ++ out2)) w.
Proof.
  revert w. induction papers1 as [|p ps IH]; intros w.
  - change (main http [] : M W _) with (ret [] : M W (list PaperEntry)).
    cbn [app]. unfold bind, ret.
    destruct (main http papers2 w) as [[[out2|e] w2] t2]; cbn [app];
      by rewrite ?app_nil_r.
  - change (main http ((p :: ps) ++ papers2))
      with (let* entry := process_paper http p in
            let* _ := sleep 2 in
            let* more := main http (ps ++ papers2) in
            ret (entry :: more)).
    change (main http (p :: ps))
      with (let* entry := process_paper http p in
            let* _ := sleep 2 in
            let* more := main http ps in
            ret (entry :: more)).
    unfold bind, sleep, ret.
    destruct (process_paper http p w) as [[[entry|e] w1] t1]; [|reflexivity].
    rewrite IH. unfold bind, ret.
    destruct (main http ps w1) as [[[out1|e] w2] t2]; [|reflexivity].
    destruct (main http papers2 w2) as [[[out2|e] w3] t3]; cbn [app];
      by rewrite ?app_nil_r, <- ?app_assoc.
Qed.

(** *** When a run raises *)

Lemma surrogate_not_space (c : N) :
  is_surrogate c = true → isspace c = false ∧ c ≠ 44.
Proof.
  unfold is_surrogate, isspace. intros [H1 H2]%andb_true_iff.
  apply N.leb_le in H1. apply N.leb_le in H2.
  repeat match goal with
         | |- context [?a <=? ?b] => destruct (N.leb_spec a b); try lia
         | |- context [?a =? ?b] => destruct (N.eqb_spec a b); try lia
         end.
  all: try (split; [reflexivity | lia]).
Qed.

Lemma not_encodable_surrogate (s : str) :
  encodable s = false ↔ ∃ c, c ∈ s ∧ is_surrogate c = true.
Proof.
  unfold encodable. induction s as [|d s IH]; simpl.
  - split; [done|]. intros (c & Hc & _). by apply elem_of_nil in Hc.
  - destruct (is_surrogate d) eqn:Hd; simpl.
    + split; [|done]. intros _. exists d. split; [left | done].
    + rewrite IH. split; intros (c & Hc & Hs); exists c; (split; [|done]).
      * by right.
      * apply elem_of_cons in Hc as [->|Hc]; [congruence | done].
Qed.

Lemma split_elem (sep c : N) (s : str) :
  c ∈ s → c ≠ sep → Exists (λ tok, c ∈ tok) (split sep s).
Proof.
  intros Hc Hne. induction s as [|d s IH]; [by apply elem_of_nil in Hc|].
  cbn [split]. destruct (N.eqb_spec d sep) as [->|Hd].
  - right. apply IH. apply elem_of_cons in Hc as [->|Hc]; [done | done].
  - pose proof (split_nonempty sep s).
    destruct (split sep s) as [|tok toks]; [done|].
    apply elem_of_cons in Hc as [->|Hc].
    + left. by left.
    + specialize (IH Hc). inversion IH; subst; [left; by right | by right].
Qed.

Lemma strip_keeps (c : N) (s : str) :
  c ∈ s → isspace c = false → c ∈ strip s.
Proof.
  intros Hc Hsp. destruct (strip_spec s) as (l & r & Hs & Hl & Hr & _).
  rewrite Hs in Hc. rewrite Forall_forall in Hl, Hr.
  apply elem_of_app in Hc as [Hc|Hc]; [apply Hl in Hc; congruence|].
  apply elem_of_app in Hc as [Hc|Hc]; [done | apply Hr in Hc; congruence].
Qed.

(** An author list with a lone surrogate has an author with one. *)
Lemma authors_of_string_unencodable (s : str) :
  encodable s = false →
  Exists (λ a, encodable a = false) (authors_of_string s).
Proof.
  intros (c & Hc & Hs)%not_encodable_surrogate.
  destruct (surrogate_not_space c Hs) as [Hsp Hne].
  apply (split_elem 44) in Hc; [|done].
  apply Exists_exists in Hc as (tok & Htok & Hc).
  apply Exists_exists. exists (strip tok).
  pose proof (strip_keeps c tok Hc Hsp) as Hin. split.
  - unfold authors_of_string. apply list_elem_of_fmap. exists tok.
    split; [done|]. apply list_elem_of_filter. split; [|done].
    intros E. rewrite E in Hin. by apply elem_of_nil in Hin.
  - apply not_encodable_surrogate. by exists c.
Qed.

Section Abort.

Context {W : Type} (http : str → W → res Page * W).

Lemma detail_authors_cons_ok a rest w cands w1 t1 det w2 t2 :
  get_scholar_profiles http a w = (Ok cands, w1, t1) →
  detail_profiles http cands w1 = (Ok det, w2, t2) →
  detail_authors http (a :: rest) w
  = (let '(r, w3, t3) := detail_authors http rest w2 in
     (match r with
      | Ok more => Ok ({| author_name := a; profiles := det |} :: more)
      | Raise e => Raise e
      end, w3, t1 ++ t2 ++ Sleep 1 :: t3)).
Proof.
  intros Hc Hd. cbn [detail_authors].
  rewrite (bind_ok _ _ _ _ _ _ Hc), (bind_ok _ _ _ _ _ _ Hd).
  unfold bind, sleep, ret.
  destruct (detail_authors http rest w2) as [[[more|e] w3] t3];
    by rewrite ?app_nil_r.
Qed.

Lemma detail_authors_unencodable (authors : list str) (w : W) :
  Exists (λ a, encodable a = false) authors →
  ∃ w' tr, detail_authors http authors w = (Raise UnicodeEncodeError, w', tr).
Proof.
  revert w. induction authors as [|a rest IH]; intros w Hex.
  - by apply Exists_nil in Hex.
  - destruct (encodable a) eqn:Ha.
    + destruct (get_scholar_profiles_spec http a w Ha) as (cands & w1 & Hc & _).
      destruct (detail_profiles_spec http cands w1) as (det & w2 & t2 & Hd & _).
      rewrite (detail_authors_cons_ok _ _ _ _ _ _ _ _ _ Hc Hd).
      apply Exists_cons in Hex as [Hex|Hex]; [congruence|].
      destruct (IH w2 Hex) as (w3 & t3 & ->). eauto.
    + cbn [detail_authors].
      rewrite (bind_raise _ _ _ _ _ _
                 (get_scholar_profiles_unquotable http _ _ w
                    (quote_not_encodable _ Ha))).
      eauto.
Qed.

Lemma encodable_query (p : paper) :
  encodable (query_of p) = encodable (format (paper_get p "title")).
Proof.
  unfold query_of, encodable. rewrite !forallb_app. simpl.
  by rewrite andb_true_r.
Qed.

(** The body of the paper loop on a paper record that is not well-formed
    raises: [AttributeError] for an author list that is [None],
    [UnicodeEncodeError] for a lone surrogate. *)
Lemma process_paper_not_ok (p : paper) (w : W) :
  paper_ok p = false →
  ∃ e w' tr,
    process_paper http p w = (Raise e, w', tr)
    ∧ (e = AttributeError ∨ e = UnicodeEncodeError).
Proof.
  intros Hnot. unfold process_paper.
  destruct (encodable (query_of p)) eqn:Hq.
  - destruct (get_scholar_data_total http _ _ w (quote_encodable _ Hq))
      as (results & w1 & Hs).
    rewrite (bind_ok _ _ _ _ _ _ Hs).
    unfold paper_ok in Hnot. rewrite <- encodable_query, Hq in Hnot.
    unfold authors_list. destruct (paper_get p "authors") as [|s].
    + unfold bind, lift. eauto 6.
    + simpl in Hnot.
      destruct (detail_authors_unencodable (authors_of_string s) w1
                  (authors_of_string_unencodable s Hnot)) as (w2 & t2 & Hd).
      unfold bind at 1. unfold lift at 1.
      rewrite (bind_raise _ _ _ _ _ _ Hd). eauto 6.
  - rewrite (bind_raise _ _ _ _ _ _
               (get_scholar_data_unquotable http _ _ w
                  (quote_not_encodable _ Hq))).
    eauto 6.
Qed.

Lemma main_cons_ok p rest w entry w1 t1 :
  process_paper http p w = (Ok entry, w1, t1) →
  main http (p :: rest) w
  = (let '(r, w2, t2) := main http rest w1 in
     (match r with
      | Ok more => Ok (entry :: more)
      | Raise e => Raise e
      end, w2, t1 ++ Sleep 2 :: t2)).
Proof.
  intros Hp. cbn [main]. rewrite (bind_ok _ _ _ _ _ _ Hp).
  unfold bind, sleep, ret.
  destruct (main http rest w1) as [[[more|e] w2] t2]; by rewrite ?app_nil_r.
Qed.

Lemma main_not_ok (papers : list paper) (w : W) :
  Exists (λ p, paper_ok p = false) papers →
  ∃ e w' tr,
    main http papers w = (Raise e, w', tr)
    ∧ (e = AttributeError ∨ e = UnicodeEncodeError).
Proof.
  revert w. induction papers as [|p rest IH]; intros w Hex.
  - by apply Exists_nil in Hex.
  - destruct (paper_ok p) eqn:Hp.
    + destruct (process_paper_spec http p w Hp) as (entry & w1 & t1 & He & _).
      rewrite (main_cons_ok _ _ _ _ _ _ He).
      apply Exists_cons in Hex as [Hex|Hex]; [congruence|].
      destruct (IH w1 Hex) as (e & w2 & t2 & -> & Hkind). eauto 6.
    + destruct (process_paper_not_ok p w Hp) as (e & w1 & t1 & He & Hkind).
      cbn [main]. rewrite (bind_raise _ _ _ _ _ _ He). eauto 6.
Qed.

End Abort.

(** X9. A run returns its output exactly when every paper record is
    well-formed (a title without lone surrogate, an author list that is a
    string without lone surrogate); otherwise it raises, and what it raises
    is [AttributeError] or [UnicodeEncodeError]: an exception of the
    network or of the extraction never leaves [main]. *)
Theorem main_returns_iff_well_formed {W : Type}
    (http : str → W → res Page * W) (papers : list paper) (w : W) :
  match (main http papers w).1.1 with
  | Ok out => Forall (λ p, paper_ok p = true) papers
  | Raise e =>
      Exists (λ p, paper_ok p = false) papers
      ∧ (e = AttributeError ∨ e = UnicodeEncodeError)
  end.
Proof.
  destruct (decide (Forall (λ p, paper_ok p = true) papers)) as [Hall|Hnot].
  - by destruct (main_spec http papers w Hall) as (out & w' & tr & -> & _).
  - apply not_Forall_Exists in Hnot; [|intros p; apply _].
    assert (Hex : Exists (λ p, paper_ok p = false) papers).
    { eapply Exists_impl; [exact Hnot|]. intros p Hp. simpl in Hp.
      by destruct (paper_ok p). }
    by destruct (main_not_ok http papers w Hex) as (e & w' & tr & -> & Hkind).
Qed.

(** *** Requests and pauses of a run *)

Lemma slept_app (t1 t2 : list event) : slept (t1 ++ t2) = slept t1 + slept t2.
Proof.
  unfold slept. induction t1 as [|[url|secs] t1 IH]; simpl; [done|done|].
  rewrite IH. lia.
Qed.

Lemma requests_cons_get (url : str) (tr : list event) :
  requests (Get url :: tr) = url :: requests tr.
Proof. reflexivity. Qed.

Lemma requests_cons_sleep (secs : N) (tr : list event) :
  requests (Sleep secs :: tr) = requests tr.
Proof. reflexivity. Qed.

Section Cost.

Context {W : Type} (http : str → W → res Page * W).

Lemma detail_profiles_cost (cands : list fields) (w : W) :
  ∃ detailed w' tr,
    detail_profiles http cands w = (Ok detailed, w', tr)
    ∧ length (requests tr) = length detailed
    ∧ slept tr = N.of_nat (length detailed).
Proof.
  revert w. induction cands as [|c rest IH]; intros w.
  - exists [], w, []. done.
  - destruct (c !! "name_link") as [url|] eqn:Hl.
    + destruct (get_author_profile_data_total http url w)
        as (d & w1 & Hd & _).
      destruct (IH w1) as (more & w2 & tr & Hrest & Hreq & Hsl).
      exists (combine c d :: more), w2, (Get url :: Sleep 1 :: tr).
      split; [by eapply detail_profiles_cons_linked|].
      rewrite requests_cons_get, requests_cons_sleep.
      split; [simpl; by rewrite Hreq|].
      change (slept (Get url :: Sleep 1 :: tr)) with (1 + slept tr).
      rewrite Hsl. simpl length. lia.
    + destruct (IH w) as (more & w2 & tr & Hrest & Hreq & Hsl).
      exists more, w2, tr. by rewrite detail_profiles_cons_unlinked.
Qed.

Lemma detail_authors_cost (authors : list str) (w : W) :
  Forall (λ a, encodable a = true) authors →
  ∃ entries w' tr,
    detail_authors http authors w = (Ok entries, w', tr)
    ∧ length (requests tr) = sum_list (requests_of_author <$> entries)
    ∧ slept tr = N.of_nat (sum_list (requests_of_author <$> entries)).
Proof.
  intros Hall. revert w. induction Hall as [|a rest Ha _ IH]; intros w.
  - exists [], w, []. done.
  - destruct (get_scholar_profiles_spec http a w Ha) as (cands & w1 & Hc & _).
    destruct (detail_profiles_cost cands w1) as (det & w2 & t2 & Hd & Hr2 & Hs2).
    destruct (IH w2) as (more & w3 & t3 & Hm & Hr3 & Hs3).
    eexists _, w3, _. split; [|split].
    + rewrite (detail_authors_cons_ok http _ _ _ _ _ _ _ _ _ Hc Hd), Hm.
      reflexivity.
    + rewrite !requests_app, !length_app, requests_cons_sleep, Hr2, Hr3.
      rewrite fmap_cons. cbn [sum_list]. unfold requests_of_author.
      cbn [profiles requests length]. simpl. lia.
    + rewrite !slept_app.
      change (slept (Sleep 1 :: t3)) with (1 + slept t3).
      change (slept [Get (authors_base ++ quoted a)]) with 0.
      rewrite Hs2, Hs3, fmap_cons. cbn [sum_list].
      unfold requests_of_author. cbn [profiles]. cbv [id]. lia.
Qed.

Lemma process_paper_cost (p : paper) (w : W) :
  paper_ok p = true →
  ∃ entry w' tr,
    process_paper http p w = (Ok entry, w', tr)
    ∧ length (requests tr) = requests_of_entry entry
    ∧ slept tr + 1 = N.of_nat (requests_of_entry entry).
Proof.
  intros Hok.
  pose proof (quote_encodable _ (paper_ok_query p Hok)) as Hq.
  destruct (get_scholar_data_total http _ _ w Hq) as (results & w1 & Hs).
  destruct (paper_ok_authors p Hok) as (s & _ & Hl & Henc).
  destruct (detail_authors_cost _ w1 Henc) as (entries & w2 & t2 & Hd & Hr & Hsl).
  eexists _, w2, _. split; [|split].
  - unfold process_paper. rewrite (bind_ok _ _ _ _ _ _ Hs).
    unfold bind at 1. unfold lift at 1. rewrite Hl.
    rewrite (bind_ok _ _ _ _ _ _ Hd). unfold ret. reflexivity.
  - rewrite !requests_app, !length_app, Hr. unfold requests_of_entry.
    cbn [authors_details requests]. simpl. lia.
  - rewrite !slept_app, Hsl. unfold requests_of_entry.
    cbn [authors_details].
    change (slept [Get (search_base ++ quoted (query_of p))]) with 0.
    change (slept []) with 0. cbv [id]. lia.
Qed.

Lemma main_cost (papers : list paper) (w : W) :
  Forall (λ p, paper_ok p = true) papers →
  ∃ out w' tr,
    main http papers w = (Ok out, w', tr)
    ∧ length out = length papers
    ∧ length (requests tr) = requests_of_output out
    ∧ slept tr = N.of_nat (requests_of_output out + length out).
Proof.
  intros Hall. revert w. induction Hall as [|p rest Hp _ IH]; intros w.
  - exists [], w, []. done.
  - destruct (process_paper_cost p w Hp) as (e & w1 & t1 & He & Hr1 & Hs1).
    destruct (IH w1) as (more & w2 & t2 & Hm & Hlen & Hr2 & Hs2).
    exists (e :: more), w2, (t1 ++ Sleep 2 :: t2). split; [|split; [|split]].
    + by rewrite (main_cons_ok http _ _ _ _ _ _ He), Hm.
    + simpl. by rewrite Hlen.
    + rewrite requests_app, length_app, requests_cons_sleep, Hr1, Hr2.
      unfold requests_of_output. by rewrite fmap_cons.
    + rewrite slept_app. change (slept (Sleep 2 :: t2)) with (2 + slept t2).
      rewrite Hs2. unfold requests_of_output in *. rewrite fmap_cons.
      cbn [sum_list length]. cbv [id]. lia.
Qed.

Lemma main_ok_well_formed (papers : list paper) (w : W) out w' tr :
  main http papers w = (Ok out, w', tr) →
  Forall (λ p, paper_ok p = true) papers.
Proof.
  intros Hrun.
  destruct (decide (Forall (λ p, paper_ok p = true) papers)) as [|Hnot];
    [done|].
  apply not_Forall_Exists in Hnot; [|intros p; apply _].
  assert (Hex : Exists (λ p, paper_ok p = false) papers).
  { eapply Exists_impl; [exact Hnot|]. intros p Hp. simpl in Hp.
    by destruct (paper_ok p). }
  destruct (main_not_ok http papers w Hex) as (e & w2 & t2 & Hr & _).
  congruence.
Qed.

End Cost.

(** X10. A run that returns has issued exactly one request for each paper,
    for each author entry and for each record of a profile list of its
    output, and it has slept one second for each of these requests and one
    more second for each paper. *)
Theorem run_requests_and_pauses {W : Type} (http : str → W → res Page * W)
    (papers : list paper) (w w' : W) (out : list PaperEntry)
    (tr : list event) :
  main http papers w = (Ok out, w', tr) →
  length (requests tr) = requests_of_output out
  ∧ slept tr = N.of_nat (length (requests tr) + length papers).
Proof.
  intros Hrun.
  pose proof (main_ok_well_formed http papers w _ _ _ Hrun) as Hall.
  destruct (main_cost http papers w Hall)
    as (out' & w2 & tr' & Hrun' & Hlen & Hreq & Hsl).
  rewrite Hrun in Hrun'. injection Hrun' as <- <- <-.
  split; [done|]. by rewrite Hsl, Hreq, Hlen.
Qed.

Lemma run_requests_and_pauses_witness :
  let out :=
    [ {| arxiv := Sample.paper_y;
         scholar_search := [];
         authors_details :=
           [ {| author_name := lit "B. Lee"; profiles := [] |} ] |} ] in
  let tr :=
    [ Get (lit "https://www.google.com/scholar?q=%22Y%22");
      Get (authors_base ++ lit "B.%20Lee");
      Sleep 1; Sleep 2 ] in
  length (requests tr) = requests_of_output out
  ∧ slept tr = N.of_nat (length (requests tr) + 1).
Proof.
  apply (run_requests_and_pauses Sample.down [Sample.paper_y] tt tt).
  vm_compute. reflexivity.
Defined.

(** ** The metadata feed and the orchestrator *)

Lemma split_no_sep_id (sep : N) (a : str) : sep ∉ a → split sep a = [a].
Proof.
  induction a as [|c a IH]; intros Hsep; cbn [split]; [done|].
  destruct (N.eqb_spec c sep) as [->|Hne]; [by destruct Hsep; left|].
  rewrite IH; [done|]. intros H. apply Hsep. by right.
Qed.

Lemma split_app_sep (sep : N) (a rest : str) :
  sep ∉ a → split sep (a ++ sep :: rest) = a :: split sep rest.
Proof.
  induction a as [|c a IH]; intros Hsep; cbn [split app].
  - by rewrite N.eqb_refl.
  - destruct (N.eqb_spec c sep) as [->|Hne]; [by destruct Hsep; left|].
    rewrite IH; [done|]. intros H. apply Hsep. by right.
Qed.

Lemma lstrip_id (a : str) :
  (∀ c, head a = Some c → isspace c = false) → lstrip a = a.
Proof.
  destruct a as [|c a]; [done|]. intros H. cbn [lstrip].
  by rewrite (H c eq_refl).
Qed.

Lemma strip_clean (a : str) : clean_name a → strip a = a.
Proof.
  intros (_ & _ & Hhd & Hlast). unfold strip, rstrip.
  rewrite (lstrip_id a Hhd).
  destruct a as [|c a] using rev_ind; [done|].
  rewrite rev_app_distr. cbn [rev app lstrip].
  rewrite last_snoc in Hlast. rewrite (Hlast c eq_refl).
  cbn [rev]. by rewrite rev_involutive.
Qed.

Lemma strip_space_clean (a : str) : clean_name a → strip (32 :: a) = a.
Proof.
  intros Hclean. unfold strip. cbn [lstrip].
  change (isspace 32) with true. cbv iota.
  by apply (strip_clean a).
Qed.

(** The tokens of a joined list of clean names, after the first one, are
    the names with a space before. *)
Lemma split_join_clean (names : list str) (a : str) :
  Forall clean_name (a :: names) →
  split 44 (Arxiv.join_str (lit ", ") (a :: names))
  = a :: ((λ n, 32 :: n) <$> names).
Proof.
  revert a. induction names as [|b names IH]; intros a Hall.
  - inversion Hall as [|? ? (_ & Hc & _) _]; subst.
    cbn [Arxiv.join_str fmap list_fmap]. by apply split_no_sep_id.
  - inversion Hall as [|? ? (_ & Hc & _) Hrest]; subst.
    change (Arxiv.join_str (lit ", ") (a :: b :: names))
      with (a ++ 44 :: 32 :: Arxiv.join_str (lit ", ") (b :: names)).
    rewrite split_app_sep by done. f_equal.
    cbn [split]. change (32 =? 44) with false. cbv iota.
    rewrite (IH b Hrest). by rewrite fmap_cons.
Qed.

(** The author list that the feed client writes gives the names back. *)
Lemma authors_of_joined_names (names : list str) :
  Forall clean_name names →
  authors_of_string (Arxiv.join_str (lit ", ") names) = names.
Proof.
  intros Hall. rewrite authors_of_string_trim_discard.
  destruct names as [|a names]; [done|].
  rewrite (split_join_clean names a Hall), fmap_cons.
  inversion Hall as [|? ? Ha Hrest]; subst.
  rewrite (strip_clean a Ha).
  rewrite filter_cons_True by by destruct Ha.
  f_equal. clear Hall Ha. induction Hrest as [|b names Hb _ IH]; [done|].
  rewrite !fmap_cons, (strip_space_clean b Hb).
  rewrite filter_cons_True by by destruct Hb. by f_equal.
Qed.

Section FeedProperties.

Context (reformat_date : str → option str).

Lemma split_str_from_nonempty (sep : str) (skip : nat) (cur s : str) :
  Arxiv.split_str_from sep skip cur s ≠ [].
Proof.
  revert skip cur. induction s as [|c s IH]; intros skip cur; simpl; [done|].
  destruct skip; [|apply IH]. destruct (starts_with sep (c :: s)); [done|].
  apply IH.
Qed.


(** The paper record of an entry, field by field. *)
Lemma paper_of_entry_fields (entry : Arxiv.Entry) (p : paper) :
  Arxiv.paper_of_entry reformat_date entry = Arxiv.Done p →
  p !! "authors"
  = Some (FStr (Arxiv.join_str (lit ", ") (Arxiv.authors entry)))
  ∧ p !! "title"
    = Some (FStr (Arxiv.replace_char 10 32 (strip (Arxiv.title entry))))
  ∧ p !! "submitter" = Some FNone
  ∧ dom p = {[ "id"; "submitter"; "published"; "authors"; "title";
               "comments"; "journal-ref"; "doi"; "report-no"; "categories";
               "license"; "abstract" ]}.
Proof.
  unfold Arxiv.paper_of_entry.
  destruct (reformat_date (Arxiv.published entry)); [|done].
  destruct (Arxiv.last_item _); [|done]. intros [= <-].
  split; [by simplify_map_eq|]. split; [by simplify_map_eq|].
  split; [by simplify_map_eq|].
  rewrite !dom_insert_L, dom_empty_L. set_solver.
Qed.

Lemma replace_char_gone (old new : N) (s : str) :
  old ≠ new → old ∉ Arxiv.replace_char old new s.
Proof.
  intros Hne. unfold Arxiv.replace_char.
  intros (c & Hc & _)%list_elem_of_fmap.
  destruct (N.eqb_spec c old); congruence.
Qed.

End FeedProperties.

Section FeedTheorems.

Context (reformat_date : str → option str).





End FeedTheorems.

(** X11. The author list that the feed client writes for an entry,
    [', '.join(names)], is read back by the orchestrator as the same names
    in the same order, when no name is empty, holds a comma, or starts or
    ends with whitespace. *)
Theorem feed_authors_round_trip (reformat_date : str → option str)
    (entry : Arxiv.Entry) (p : paper) :
  Forall clean_name (Arxiv.authors entry) →
  Arxiv.paper_of_entry reformat_date entry = Arxiv.Done p →
  authors_list p = Ok (Arxiv.authors entry).
Proof.
  intros Hclean Hp.
  destruct (paper_of_entry_fields reformat_date entry p Hp) as (Ha & _).
  unfold authors_list, paper_get. rewrite Ha. cbn [default]. cbv [id].
  by rewrite authors_of_joined_names.
Qed.

Lemma feed_authors_round_trip_witness :
  authors_list
    (<["id" := FStr (lit "2101.00001v1")]>
    (<["submitter" := FNone]>
    (<["published" := FStr (lit "2021-01-01")]>
    (<["authors" := FStr (lit "A. Smith, B. Lee")]>
    (<["title" := FStr (lit "A title")]>
    (<["comments" := FNone]>
    (<["journal-ref" := FNone]>
    (<["doi" := FNone]>
    (<["report-no" := FNone]>
    (<["categories" := FStr (lit "cs.AI")]>
    (<["license" := FNone]>
    (<["abstract" := FStr (lit "Text.")]> ∅))))))))))))
  = Ok [lit "A. Smith"; lit "B. Lee"].
Proof.
  apply (feed_authors_round_trip FeedSample.date_of FeedSample.entry).
  - apply Forall_cons_2; [|apply Forall_cons_2; [|apply Forall_nil_2]];
      (split; [done|]; split; [compute_done|];
       split; intros c [= <-]; reflexivity).
  - vm_compute. reflexivity.
Defined.

(** X12. A paper record written by the feed client has its twelve keys;
    its title is a string without newline and its author list is a string,
    so that the orchestrator never raises [AttributeError] on it: the
    record is well-formed exactly when neither string holds a lone
    surrogate. *)
Theorem feed_paper_is_accepted (reformat_date : str → option str)
    (entry : Arxiv.Entry) (p : paper) :
  Arxiv.paper_of_entry reformat_date entry = Arxiv.Done p →
  ∃ t s,
    paper_get p "title" = FStr t
    ∧ (10 ∉ t)
    ∧ paper_get p "authors" = FStr s
    ∧ authors_list p = Ok (authors_of_string s)
    ∧ paper_ok p = encodable t && encodable s
    ∧ dom p = paper_keys.
Proof.
  intros Hp.
  destruct (paper_of_entry_fields reformat_date entry p Hp)
    as (Ha & Ht & _ & Hdom).
  eexists _, _. unfold paper_ok, authors_list, paper_get.
  rewrite Ha, Ht. cbn [default format]. cbv [id].
  split; [done|]. split; [by apply replace_char_gone|].
  split; [done|]. split; [done|]. split; [done|]. exact Hdom.
Qed.

Lemma feed_paper_is_accepted_witness :
  ∃ p t s,
    Arxiv.paper_of_entry FeedSample.date_of FeedSample.entry = Arxiv.Done p
    ∧ paper_get p "title" = FStr t
    ∧ (10 ∉ t)
    ∧ paper_get p "authors" = FStr s
    ∧ authors_list p = Ok (authors_of_string s)
    ∧ paper_ok p = encodable t && encodable s
    ∧ dom p = paper_keys.
Proof.
  destruct (Arxiv.paper_of_entry FeedSample.date_of FeedSample.entry)
    as [p|err] eqn:E; [|by vm_compute in E].
  exists p.
  destruct (feed_paper_is_accepted FeedSample.date_of FeedSample.entry p E)
    as (t & s & H).
  by exists t, s.
Defined.


(** ** The keys of the records *)

Lemma remove_empty_dom (d : fields) : dom (remove_empty d) ⊆ dom d.
Proof. unfold remove_empty. apply dom_filter_subseteq. Qed.

Lemma dom_insert_within {A} (k : string) (v : A) (m : gmap string A)
    (K : gset string) :
  k ∈ K → dom m ⊆ K → dom (<[k:=v]> m) ⊆ K.
Proof.
  intros Hk Hm. rewrite dom_insert_L. apply union_least; [|done].
  by apply singleton_subseteq_l.
Qed.

Lemma dom_empty_within {A} (K : gset string) : dom (∅ : gmap string A) ⊆ K.
Proof. rewrite dom_empty_L. apply empty_subseteq. Qed.

(** The keys of a dictionary built by insertions are among listed keys. *)
Ltac keys_within :=
  repeat (apply dom_insert_within; [compute_done|]); apply dom_empty_within.

Lemma scholar_result_keys (el : SearchBlock) (r : fields) :
  scholar_result el = Ok r → dom r ⊆ search_keys.
Proof.
  unfold scholar_result. cbv zeta. intros [= <-].
  etransitivity; [apply remove_empty_dom|].
  destruct (a_sib_a el) as [|first ?];
    [|destruct (find_next_sibling_a first)];
    destruct (gs_nph_a el), (gs_rs el), (gs_a el);
    (destruct (gs_rt el) as [title_el|];
     [destruct (find_a title_el) as [anchor|];
      [destruct (attrs anchor !! "href")|]|]);
    keys_within.
Qed.

Lemma scholar_profile_keys (el : UserBlock) (c : fields) :
  scholar_profile el = Ok c → dom c ⊆ candidate_keys.
Proof.
  unfold scholar_profile. cbv zeta. intros Hc.
  assert (∃ d : fields, c = remove_empty d ∧ dom d ⊆ candidate_keys)
    as (d & -> & Hd);
    [|etransitivity; [apply remove_empty_dom | done]].
  destruct (gs_ai_cby el) as [cited|];
    [destruct (last_item (split_ws (get_text cited))); [|done]|];
    injection Hc as <-; eexists; (split; [reflexivity|]);
    destruct (gs_ai_int el), (gs_ai_eml el), (gs_ai_aff el);
    (destruct (gs_ai_name el) as [name_el|];
     [destruct (find_a name_el) as [anchor|];
      [destruct (attrs anchor !! "href")|]|]);
    keys_within.
Qed.

Lemma profile_article_keys (el : ArticleBlock) :
  dom (profile_article el) ⊆ article_keys.
Proof.
  unfold profile_article. cbv zeta.
  etransitivity; [apply remove_empty_dom|].
  destruct (gs_gray el) as [|? [|? ?]]; cbn [head];
    (destruct (gsc_a_at el) as [title_el|];
     [destruct (truthy (tag_get title_el "href" []))|]);
    keys_within.
Qed.

Lemma profile_data_of_keys (soup : Page) :
  dom (profile_data_of soup) ⊆ detail_keys.
Proof.
  unfold profile_data_of. cbv zeta.
  destruct (gsc_prf_in soup), (gsc_prf_il soup), (gsc_prf_ivh soup),
    (gsc_prf_int soup);
    keys_within.
Qed.

(** X14. The records never hold a key outside their lists: a search
    result has keys among the nine search keys, a candidate among the six
    candidate keys, a profile detail among the six detail keys, and its
    article entries among the four article keys; hence a merged record has
    keys among the candidate and the detail keys. *)
Theorem record_keys {W : Type} (http : str → W → res Page * W) :
  (∀ query w results w1 tr,
     get_scholar_data http query w = (Ok results, w1, tr) →
     Forall (λ r : fields, dom r ⊆ search_keys) results)
  ∧ (∀ author w cands w1 tr,
       get_scholar_profiles http author w = (Ok cands, w1, tr) →
       Forall (λ c : fields, dom c ⊆ candidate_keys) cands)
  ∧ (∀ url w d w1 tr,
       get_author_profile_data http url w = (Ok d, w1, tr) →
       dom d ⊆ detail_keys
       ∧ (∀ articles, d !! "articles" = Some (VArticles articles) →
                      Forall (λ a : fields, dom a ⊆ article_keys) articles)
       ∧ ∀ c : fields, dom c ⊆ candidate_keys →
                       dom (combine c d) ⊆ candidate_keys ∪ detail_keys).
Proof.
  split; [|split].
  - intros query w results w1 tr.
    destruct (quote query) as [q|e] eqn:Hq.
    + destruct (http (search_base ++ q) w) as [[page|e] w2] eqn:E.
      * rewrite (get_scholar_data_ok http _ _ _ _ _ Hq E).
        intros [= <- _ _]. unfold scholar_results.
        destruct (scholar_results_from_in_order (gs_r page) [])
          as (rs & -> & HF).
        cbn [app]. clear -HF.
        induction HF as [|el r els rs Hr _ IH]; constructor; [|done].
        by eapply scholar_result_keys.
      * rewrite (get_scholar_data_raise http _ _ _ _ _ Hq E).
        intros [= <- _ _]. constructor.
    + by rewrite (get_scholar_data_unquotable http _ _ _ Hq).
  - intros author w cands w1 tr.
    destruct (quote author) as [q|e] eqn:Hq.
    + destruct (http (authors_base ++ q) w) as [[page|e] w2] eqn:E.
      * rewrite (get_scholar_profiles_ok http _ _ _ _ _ Hq E).
        destruct (scholar_profiles [] (gsc_1usr page)) as [l|e] eqn:El.
        -- intros [= <- _ _].
           apply scholar_profiles_in_order in El as (l' & -> & HF).
           cbn [app]. clear -HF.
           induction HF as [|el c els cs Hc _ IH]; constructor; [|done].
           by eapply scholar_profile_keys.
        -- intros [= <- _ _]. constructor.
      * rewrite (get_scholar_profiles_raise http _ _ _ _ _ Hq E).
        intros [= <- _ _]. constructor.
    + by rewrite (get_scholar_profiles_unquotable http _ _ _ Hq).
  - intros url w d w1 tr Hd.
    assert (Hshape : d = ∅ ∨ ∃ page, d = profile_data_of page).
    { destruct (get_author_profile_data_total http url w)
        as (d' & w' & Hd' & Hshape).
      rewrite Hd in Hd'. by injection Hd' as -> _ _. }
    assert (Hdom : dom d ⊆ detail_keys).
    { destruct Hshape as [-> | [page ->]];
        [apply dom_empty_within | apply profile_data_of_keys]. }
    split; [done|]. split.
    + intros articles Ha. destruct Hshape as [-> | [page ->]]; [done|].
      rewrite profile_data_of_articles in Ha. injection Ha as <-.
      apply Forall_fmap, Forall_forall. intros el _.
      apply profile_article_keys.
    + intros c Hc. destruct (combine_merge_law c d) as [_ ->].
      apply union_least; [by apply union_subseteq_r' | by apply union_subseteq_l'].
Qed.

Lemma record_keys_witness :
  Forall (λ r : fields, dom r ⊆ search_keys)
    [ ({[ "title" := lit "X"; "title_link" := lit "http://x";
          "displayed_link" := lit "A Smith - 2020" ]} : fields) ]
  ∧ Forall (λ c : fields, dom c ⊆ candidate_keys)
      [ ({[ "name" := lit "B. Lee" ]} : fields) ]
  ∧ dom (profile_data_of Sample.full_profile) ⊆ detail_keys.
Proof.
  destruct (record_keys
              (Sample.serve
                 (Sample.page_of [Sample.block] [Sample.user_unlinked])))
    as (Hs & Hc & _).
  destruct (record_keys (Sample.serve Sample.full_profile)) as (_ & _ & Hd).
  split; [|split].
  - apply (Hs (lit "X") tt _ tt [Get (search_base ++ lit "X")]).
    vm_compute. reflexivity.
  - apply (Hc (lit "B. Lee") tt _ tt [Get (authors_base ++ lit "B.%20Lee")]).
    vm_compute. reflexivity.
  - apply (Hd (lit "u") tt (profile_data_of Sample.full_profile) tt
             [Get (lit "u")]).
    reflexivity.
Defined.

(** ** Paper records with a missing field *)

(** X15. A paper record without title is searched with the empty quoted
    query, and one whose title is [None] with the quoted word [None]; a
    paper record without author list has no author entry, and its search is
    the only request made for it. *)
Theorem paper_with_missing_field {W : Type} (http : str → W → res Page * W) :
  (∀ p : paper, p !! "title" = None →
                search_url p = search_base ++ lit "%22%22")
  ∧ (∀ p : paper, p !! "title" = Some FNone →
                  search_url p = search_base ++ lit "%22None%22")
  ∧ (∀ (p : paper) (w : W),
       p !! "authors" = None →
       encodable (format (paper_get p "title")) = true →
       ∃ results w1,
         process_paper http p w
         = (Ok {| arxiv := p; scholar_search := results;
                  authors_details := [] |},
            w1, [Get (search_url p)])).
Proof.
  split; [|split].
  - intros p Hp. unfold search_url, query_of, paper_get. rewrite Hp.
    reflexivity.
  - intros p Hp. unfold search_url, query_of, paper_get. rewrite Hp.
    reflexivity.
  - intros p w Hp Henc.
    assert (Hq : quote (query_of p) = Ok (quoted (query_of p))).
    { apply quote_encodable. by rewrite encodable_query. }
    destruct (get_scholar_data_total http _ _ w Hq) as (results & w1 & Hs).
    exists results, w1. unfold process_paper.
    rewrite (bind_ok _ _ _ _ _ _ Hs).
    unfold authors_list, paper_get at 1. rewrite Hp.
    reflexivity.
Qed.

Lemma paper_with_missing_field_witness :
  search_url {[ "id" := FStr (lit "1") ]} = search_base ++ lit "%22%22"
  ∧ search_url {[ "title" := FNone ]} = search_base ++ lit "%22None%22"
  ∧ ∃ results w1,
      process_paper Sample.down {[ "title" := FStr (lit "X") ]} tt
      = (Ok {| arxiv := {[ "title" := FStr (lit "X") ]};
               scholar_search := results;
               authors_details := [] |},
         w1, [Get (search_url {[ "title" := FStr (lit "X") ]})]).
Proof.
  destruct (paper_with_missing_field Sample.down) as (Ha & Hb & Hc).
  split; [|split].
  - apply Ha. reflexivity.
  - apply Hb. reflexivity.
  - apply Hc; reflexivity.
Defined.

(** ** The identifier of a paper *)

Lemma last_cons_ne {A} (x : A) (l : list A) : l ≠ [] → last (x :: l) = last l.
Proof. by destruct l. Qed.

Lemma split_str_from_last_suffix (sep : str) (skip : nat) (cur s t : str) :
  skip = 0%nat ∨ cur = [] →
  last (Arxiv.split_str_from sep skip cur s) = Some t →
  ∃ pre, rev cur ++ s = pre ++ t.
Proof.
  revert skip cur. induction s as [|c s IH]; intros skip cur Hinv;
    cbn [Arxiv.split_str_from].
  - intros [= <-]. exists []. by rewrite app_nil_r.
  - destruct skip as [|k].
    + destruct (starts_with sep (c :: s)).
      * rewrite last_cons_ne by apply split_str_from_nonempty.
        intros Ht. destruct (IH _ [] (or_intror eq_refl) Ht) as [pre Hpre].
        cbn [rev app] in Hpre. exists (rev cur ++ c :: pre).
        by rewrite Hpre, <- app_assoc.
      * intros Ht. destruct (IH _ (c :: cur) (or_introl eq_refl) Ht)
          as [pre Hpre].
        exists pre. rewrite <- Hpre. cbn [rev]. by rewrite <- app_assoc.
    + destruct Hinv as [? | ->]; [done|].
      intros Ht. destruct (IH _ [] (or_intror eq_refl) Ht) as [pre Hpre].
      cbn [rev app] in *. exists (c :: pre). by rewrite Hpre.
Qed.

Lemma split_str_from_no_first (c0 : N) (sep' cur s : str) :
  c0 ∉ s →
  Arxiv.split_str_from (c0 :: sep') 0 cur s = [rev cur ++ s].
Proof.
  revert cur. induction s as [|c s IH]; intros cur Hc;
    cbn [Arxiv.split_str_from starts_with].
  - by rewrite app_nil_r.
  - destruct (N.eqb_spec c0 c) as [->|Hne]; [by destruct Hc; left|].
    cbn [andb]. rewrite IH by (intros H; apply Hc; by right).
    cbn [rev]. by rewrite <- app_assoc.
Qed.

(** X16. The identifier of a paper record is a suffix of the identifier
    of the feed entry, and the whole of it when the entry's identifier
    holds no slash; its extraction never raises. *)
Theorem paper_id_is_a_suffix (reformat_date : str → option str)
    (entry : Arxiv.Entry) (p : paper) :
  Arxiv.paper_of_entry reformat_date entry = Arxiv.Done p →
  ∃ paper_id pre,
    p !! "id" = Some (FStr paper_id)
    ∧ Arxiv.id entry = pre ++ paper_id
    ∧ (47 ∉ Arxiv.id entry → paper_id = Arxiv.id entry).
Proof.
  unfold Arxiv.paper_of_entry.
  destruct (reformat_date (Arxiv.published entry)); [|done].
  unfold Arxiv.last_item, Arxiv.split_str.
  destruct (last (Arxiv.split_str_from (lit "/abs/") 0 [] (Arxiv.id entry)))
    as [tok|] eqn:Htok; [|done].
  intros [= <-]. exists tok.
  destruct (split_str_from_last_suffix _ _ _ _ _ (or_introl eq_refl) Htok)
    as [pre Hpre].
  exists pre. split; [by simplify_map_eq|]. split; [exact Hpre|].
  intros Hno.
  change (lit "/abs/") with (47 :: lit "abs/") in Htok.
  rewrite split_str_from_no_first in Htok by done.
  by injection Htok as <-.
Qed.

Lemma paper_id_is_a_suffix_witness :
  ∃ p paper_id pre,
    Arxiv.paper_of_entry FeedSample.date_of FeedSample.entry = Arxiv.Done p
    ∧ p !! "id" = Some (FStr paper_id)
    ∧ Arxiv.id FeedSample.entry = pre ++ paper_id
    ∧ (47 ∉ Arxiv.id FeedSample.entry → paper_id = Arxiv.id FeedSample.entry).
Proof.
  destruct (Arxiv.paper_of_entry FeedSample.date_of FeedSample.entry)
    as [p|err] eqn:E; [|by vm_compute in E].
  exists p.
  destruct (paper_id_is_a_suffix FeedSample.date_of FeedSample.entry p E)
    as (paper_id & pre & H).
  by exists paper_id, pre.
Defined.

(** ** Article entries *)

(** X17. An article entry has a link exactly when its title anchor has an
    [href] that is not empty, and the link is then the scholar host
    followed by that [href]: unlike the composed links of a search result,
    it is never the bare host. Its authors are the text of the first
    [.gs_gray] element and its publication the text of the second one,
    when these are not empty. *)
Theorem article_entry_fields (el : ArticleBlock) :
  profile_article el !! "link" = article_link el
  ∧ profile_article el !! "authors" = kept (get_text <$> gs_gray el !! 0%nat)
  ∧ profile_article el !! "publication"
    = kept (get_text <$> gs_gray el !! 1%nat)
  ∧ profile_article el !! "title" = kept (get_text <$> gsc_a_at el).
Proof.
  unfold profile_article, article_link, kept, tag_get. cbv zeta.
  rewrite !remove_empty_lookup_eq.
  destruct (gs_gray el) as [|g1 [|g2 gs]]; cbn [head lookup list_lookup];
    (destruct (gsc_a_at el) as [title_el|];
     [destruct (attrs title_el !! "href") as [[|c href]|]|]);
    cbv [id]; cbn [default truthy fmap option_fmap option_map];
    repeat split;
    rewrite ?lookup_insert_eq, ?lookup_insert_ne, ?lookup_empty by done;
    repeat match goal with
           | |- context [match ?x with [] => _ | _ :: _ => _ end] =>
               destruct x eqn:?
           end;
    done.
Qed.
